(** * ID photo resizer: the size-targeting encode pipeline of [src/App.tsx]

    The development embeds [processImage] (App.tsx, lines 48-119): the raster
    normalisation onto a 295 x 413 canvas, the maximum-quality JPEG export and
    the byte padding up to [PREFERRED_KB * 1024] bytes.  Browser services the
    code calls (image decoding, the 2D context, the JPEG encoder) are taken as
    a record of oracles; everything the source itself computes is a Rocq
    function. *)

From stdpp Require Import base numbers list list_numbers strings pretty.

Local Open Scope Z_scope.

(** ** Configuration constants (App.tsx, lines 11-15) *)

Definition TARGET_WIDTH : Z := 295.
Definition TARGET_HEIGHT : Z := 413.
Definition MIN_KB : Z := 150.
Definition MAX_KB : Z := 250.
Definition PREFERRED_KB : Z := 200.

(** [const targetSizeInBytes = PREFERRED_KB * 1024] (line 88). *)
Definition targetSizeInBytes : Z := PREFERRED_KB * 1024.

(** The two bounds the source declares and never reads, in bytes. *)
Definition minBytes : Z := MIN_KB * 1024.
Definition maxBytes : Z := MAX_KB * 1024.

(** ** Byte buffers

    An [ArrayBuffer] and a [Uint8Array] over it are a list of integers, one
    per byte; [byteLength] is the JS number the source reads. *)

Module Uint8Array.

Definition byteLength (a : list Z) : Z := Z.of_nat (length a).

(** Storing into a typed array converts the number with ToUint8. *)
Definition to_uint8 (v : Z) : Z := v `mod` 256.

(** [new Uint8Array(n)]: [n] zero bytes; a negative length is a RangeError,
    here [None]. *)
Definition new (n : Z) : option (list Z) :=
  if n <? 0 then None else Some (replicate (Z.to_nat n) 0).

(** [target.set(source, offset)]: copies [source] into [target] from
    [offset]; a source that does not fit is a RangeError, here [None]. *)
Definition set (target source : list Z) (offset : Z) : option (list Z) :=
  if (offset <? 0) || (byteLength target <? offset + byteLength source)
  then None
  else Some (list_inserts (Z.to_nat offset) source target).

(** [a[i] = v]: an index outside the array leaves it unchanged. *)
Definition store (a : list Z) (i v : Z) : list Z :=
  if (0 <=? i) && (i <? byteLength a)
  then <[Z.to_nat i := to_uint8 v]> a
  else a.

End Uint8Array.

(** JS [%] on integers is the truncated remainder. *)
Definition js_rem (a b : Z) : Z := Z.rem a b.

(** The filler loop (lines 101-103):
    [for (let i = arrayBuffer.byteLength; i < paddedBuffer.byteLength; i++)
       paddedBuffer[i] = (i % 255);]
    The length of a typed array is fixed and the body does not assign [i], so
    the loop visits the offsets [start, start+1, ..., byteLength-1] in order. *)
Definition fill_padding (start : Z) (paddedBuffer : list Z) : list Z :=
  foldl (fun buf i => Uint8Array.store buf i (js_rem i 255))
        paddedBuffer
        (seqZ start (Uint8Array.byteLength paddedBuffer - start)).

(** Lines 96-103: allocate, copy the baseline bytes, fill the tail. *)
Definition build_padded (arrayBuffer : list Z) (paddingSize : Z) : option (list Z) :=
  match Uint8Array.new (Uint8Array.byteLength arrayBuffer + paddingSize) with
  | None => None
  | Some paddedBuffer =>
      match Uint8Array.set paddedBuffer arrayBuffer 0 with
      | None => None
      | Some paddedBuffer =>
          Some (fill_padding (Uint8Array.byteLength arrayBuffer) paddedBuffer)
      end
  end.

(** The filler in closed form, used to state what the loop leaves behind:
    the offsets [start .. start+n-1] reduced modulo 255. *)
Definition filler (start n : Z) : list Z :=
  (fun i => i `mod` 255) <$> seqZ start n.

(** ** Blobs, images and the canvas *)

Record Blob := mkBlob { blob_bytes : list Z; blob_type : string }.

(** [blob.size] *)
Definition size (b : Blob) : Z := Uint8Array.byteLength (blob_bytes b).

(** A decoded [HTMLImageElement]: its intrinsic dimensions and pixel data. *)
Record SourceImage := mkImage {
  naturalWidth : Z;
  naturalHeight : Z;
  pixels : list Z
}.

(** What a 2D context has painted, oldest first.  [DrawImage] carries the
    source rectangle and the destination rectangle the call resolves to. *)
Inductive DrawOp :=
| FillRect (style : string) (x y w h : Z)
| DrawImage (img : SourceImage) (sx sy sw sh : Z) (dx dy dw dh : Z).

Record Canvas := mkCanvas {
  width : Z;
  height : Z;
  fillStyle : string;
  ops : list DrawOp
}.

(** [document.createElement('canvas')]: 300 x 150, nothing painted. *)
Definition createCanvas : Canvas :=
  {| width := 300; height := 150; fillStyle := "#000000"; ops := [] |}.

(** Assigning a dimension clears the bitmap and resets the context state. *)
Definition set_width (c : Canvas) (w : Z) : Canvas :=
  {| width := w; height := height c; fillStyle := "#000000"; ops := [] |}.

Definition set_height (c : Canvas) (h : Z) : Canvas :=
  {| width := width c; height := h; fillStyle := "#000000"; ops := [] |}.

Definition set_fillStyle (c : Canvas) (style : string) : Canvas :=
  {| width := width c; height := height c; fillStyle := style; ops := ops c |}.

Definition fillRect (c : Canvas) (x y w h : Z) : Canvas :=
  {| width := width c; height := height c; fillStyle := fillStyle c;
     ops := ops c ++ [FillRect (fillStyle c) x y w h] |}.

(** The five-argument [drawImage(img, dx, dy, dw, dh)]: the source rectangle
    is the whole image. *)
Definition drawImage (c : Canvas) (img : SourceImage) (dx dy dw dh : Z) : Canvas :=
  {| width := width c; height := height c; fillStyle := fillStyle c;
     ops := ops c ++ [DrawImage img 0 0 (naturalWidth img) (naturalHeight img)
                                dx dy dw dh] |}.

(** Pixel [(px, py)] lies in the rectangle with corner [(x, y)] and extent
    [w] x [h]. *)
Definition in_rect (x y w h px py : Z) : bool :=
  (x <=? px) && (px <? x + w) && (y <=? py) && (py <? y + h).

Definition on_canvas (c : Canvas) (px py : Z) : bool :=
  in_rect 0 0 (width c) (height c) px py.

(** The operation paints pixel [(px, py)] of the destination. *)
Definition paints (op : DrawOp) (px py : Z) : bool :=
  match op with
  | FillRect _ x y w h => in_rect x y w h px py
  | DrawImage _ _ _ _ _ dx dy dw dh => in_rect dx dy dw dh px py
  end.

(** The part of the image a [DrawImage] reads is the whole image. *)
Definition reads_whole_image (op : DrawOp) : bool :=
  match op with
  | FillRect _ _ _ _ _ => false
  | DrawImage img sx sy sw sh _ _ _ _ =>
      (sx =? 0) && (sy =? 0) && (sw =? naturalWidth img) && (sh =? naturalHeight img)
  end.

(** The horizontal and the vertical scale factor of a [DrawImage], [dw/sw]
    and [dh/sh], are the same. *)
Definition uniform_scale (op : DrawOp) : bool :=
  match op with
  | FillRect _ _ _ _ _ => true
  | DrawImage _ _ _ sw sh _ _ dw dh => dw * sh =? dh * sw
  end.

(** ** The browser and the application state *)

(** The services [processImage] awaits or calls. *)
Record Browser := mkBrowser {
  (** [img.src = image]: [onload] with the decoded image, or [onerror] *)
  image_load : string -> option SourceImage;
  (** [canvas.getContext('2d')] is non-null *)
  getContext_2d : Canvas -> bool;
  (** [canvas.toBlob(cb, type, quality)]: the blob handed to [cb], or null *)
  canvas_toBlob : Canvas -> string -> Z -> option Blob
}.

(** What a [throw] or a rejected promise carries. *)
Inductive Exn :=
| ImageErrorEvent (src : string)
| Error (message : string)
| RangeError.

(** The [useState] cells of the component (lines 18-23).  [processedImage]
    holds an object URL, here the index of the blob in the URL store. *)
Record AppState := mkApp {
  image : option string;
  fileInfo : option (string * Z);
  processing : bool;
  processedImage : option nat;
  processedSize : option Z;
  error : option string
}.

(** Calls that leave the component, in the order they are made. *)
Inductive Event :=
| ImageLoad (src : string)
| GetContext
| ToBlob (type : string) (quality : Z)
| CreateObjectURL (url : nat)
| ConsoleError (e : Exn).

Record World := mkWorld {
  app : AppState;
  object_urls : list Blob;
  events : list Event
}.

(** The blob behind the object URL in [processedImage]. *)
Definition artifact (w : World) : option Blob :=
  match processedImage (app w) with
  | Some url => object_urls w !! url
  | None => None
  end.

(** The [image] cell when it is truthy: line 49 returns at once for [null]
    and for the empty string. *)
Definition selected_image (w : World) : option string :=
  match image (app w) with
  | Some src => if String.eqb src "" then None else Some src
  | None => None
  end.

(** ** A state and exception monad for the body of [processImage] *)

Inductive result (A : Type) :=
| Ok (a : A)
| Throw (e : Exn).
Arguments Ok {A} a.
Arguments Throw {A} e.

Definition M (A : Type) : Type := World -> World * result A.

Definition ret {A} (a : A) : M A := fun w => (w, Ok a).

Definition bind {A B} (m : M A) (k : A -> M B) : M B :=
  fun w =>
    match m w with
    | (w', Ok a) => k a w'
    | (w', Throw e) => (w', Throw e)
    end.

Definition throw {A} (e : Exn) : M A := fun w => (w, Throw e).

(** [try { m } catch (err) { h err }] *)
Definition try_catch {A} (m : M A) (h : Exn -> M A) : M A :=
  fun w =>
    match m w with
    | (w', Ok a) => (w', Ok a)
    | (w', Throw e) => h e w'
    end.

(** [try { m } finally { f }] *)
Definition try_finally {A} (m : M A) (f : M unit) : M A :=
  fun w =>
    match m w with
    | (w', r) =>
        match f w' with
        | (w'', Ok _) => (w'', r)
        | (w'', Throw e) => (w'', Throw e)
        end
    end.

Declare Scope monad_scope.
Delimit Scope monad_scope with M.
Notation "x <- m ;; k" := (bind m (fun x => k))
  (at level 100, m at next level, right associativity) : monad_scope.
Notation "m ;;; k" := (bind m (fun _ => k))
  (at level 100, right associativity) : monad_scope.
Local Open Scope monad_scope.

Definition emit (ev : Event) : M unit :=
  fun w => ({| app := app w; object_urls := object_urls w;
               events := events w ++ [ev] |}, Ok tt).

Definition update (f : AppState -> AppState) : M unit :=
  fun w => ({| app := f (app w); object_urls := object_urls w;
               events := events w |}, Ok tt).

Definition setProcessing (b : bool) : M unit :=
  update (fun s => {| image := image s; fileInfo := fileInfo s; processing := b;
                      processedImage := processedImage s;
                      processedSize := processedSize s; error := error s |}).

Definition setError (e : option string) : M unit :=
  update (fun s => {| image := image s; fileInfo := fileInfo s;
                      processing := processing s;
                      processedImage := processedImage s;
                      processedSize := processedSize s; error := e |}).

Definition setProcessedImage (url : option nat) : M unit :=
  update (fun s => {| image := image s; fileInfo := fileInfo s;
                      processing := processing s;
                      processedImage := url;
                      processedSize := processedSize s; error := error s |}).

Definition setProcessedSize (n : option Z) : M unit :=
  update (fun s => {| image := image s; fileInfo := fileInfo s;
                      processing := processing s;
                      processedImage := processedImage s;
                      processedSize := n; error := error s |}).

(** [URL.createObjectURL(blob)]: a fresh URL for the blob. *)
Definition createObjectURL (b : Blob) : M nat :=
  fun w =>
    let url := length (object_urls w) in
    ({| app := app w; object_urls := object_urls w ++ [b];
        events := events w ++ [CreateObjectURL url] |}, Ok url).

(** [console.error(err)] *)
Definition console_error (e : Exn) : M unit := emit (ConsoleError e).

(** The message of line 114. *)
Definition generic_failure : string := "处理图像时出错，请重试。".

Section pipeline.

Variable br : Browser.

(** Lines 54-59: create the image, set its source, await load or error. *)
Definition loadImage (src : string) : M SourceImage :=
  emit (ImageLoad src) ;;;
  match image_load br src with
  | Some img => ret img
  | None => throw (ImageErrorEvent src)
  end.

(** [canvas.getContext('2d')]; [true] stands for a context on [canvas]. *)
Definition getContext (canvas : Canvas) : M bool :=
  emit GetContext ;;; ret (getContext_2d br canvas).

(** [new Promise(res => canvas.toBlob(b => res(b), type, quality))] *)
Definition toBlob (canvas : Canvas) (type : string) (quality : Z) : M (option Blob) :=
  emit (ToBlob type quality) ;;; ret (canvas_toBlob br canvas type quality).

(** The raster normaliser, lines 54-71. *)
Definition normalize (image : string) : M Canvas :=
  img <- loadImage image ;;
  let canvas := createCanvas in
  let canvas := set_width canvas TARGET_WIDTH in
  let canvas := set_height canvas TARGET_HEIGHT in
  ctx <- getContext canvas ;;
  if negb ctx then throw (Error "Canvas context failed")
  else
    let canvas := set_fillStyle canvas "#FFFFFF" in
    let canvas := fillRect canvas 0 0 TARGET_WIDTH TARGET_HEIGHT in
    let canvas := drawImage canvas img 0 0 TARGET_WIDTH TARGET_HEIGHT in
    ret canvas.

(** Lines 90-107, on the baseline blob: the new [finalBlob] and
    [currentSize]. *)
Definition pad_to_target (finalBlob : Blob) (currentSize : Z) : M (Blob * Z) :=
  if currentSize <? targetSizeInBytes then
    let arrayBuffer := blob_bytes finalBlob in
    let paddingSize := targetSizeInBytes - currentSize in
    if 0 <? paddingSize then
      match build_padded arrayBuffer paddingSize with
      | None => throw RangeError
      | Some paddedBuffer =>
          let finalBlob := {| blob_bytes := paddedBuffer; blob_type := "image/jpeg" |} in
          ret (finalBlob, size finalBlob)
      end
    else ret (finalBlob, currentSize)
  else ret (finalBlob, currentSize).

(** The size-targeting encoder, lines 79-107. *)
Definition encode (canvas : Canvas) : M (Blob * Z) :=
  finalBlob <- toBlob canvas "image/jpeg" 1 ;;
  match finalBlob with
  | None => throw (Error "Blob generation failed")
  | Some finalBlob => pad_to_target finalBlob (size finalBlob)
  end.

(** The [try] block, lines 54-112. *)
Definition processImage_body (image : string) : M unit :=
  canvas <- normalize image ;;
  r <- encode canvas ;;
  let '(finalBlob, currentSize) := r in
  url <- createObjectURL finalBlob ;;
  setProcessedImage (Some url) ;;;
  setProcessedSize (Some currentSize).

(** [processImage], lines 48-119.  Line 109 tests [finalBlob] again, which
    is a blob on every path past line 84. *)
Definition processImage : M unit :=
  fun w =>
    match selected_image w with
    | None => (w, Ok tt)
    | Some image =>
        (setProcessing true ;;;
         setError None ;;;
         try_finally
           (try_catch (processImage_body image)
                      (fun err => setError (Some generic_failure) ;;;
                                  console_error err))
           (setProcessing false)) w
    end.

(** The world an invocation leaves behind. *)
Definition run (w : World) : World := fst (processImage w).

End pipeline.

(** The staged canvas on which the context is requested (line 64). *)
Definition blank_canvas : Canvas :=
  set_height (set_width createCanvas TARGET_WIDTH) TARGET_HEIGHT.

(** The canvas the normaliser hands to the encoder for a decoded image. *)
Definition normalized (img : SourceImage) : Canvas :=
  drawImage
    (fillRect (set_fillStyle blank_canvas "#FFFFFF") 0 0 TARGET_WIDTH TARGET_HEIGHT)
    img 0 0 TARGET_WIDTH TARGET_HEIGHT.

(** The outcome of the padding step in closed form. *)
Definition size_targeted (baseline : Blob) : Blob :=
  if size baseline <? targetSizeInBytes
  then {| blob_bytes := blob_bytes baseline
                        ++ filler (size baseline) (targetSizeInBytes - size baseline);
          blob_type := "image/jpeg" |}
  else baseline.

(** The world after an invocation that published [final]. *)
Definition published (w : World) (src : string) (final : Blob) : World :=
  {| app := {| image := image (app w); fileInfo := fileInfo (app w);
               processing := false;
               processedImage := Some (length (object_urls w));
               processedSize := Some (size final);
               error := None |};
     object_urls := object_urls w ++ [final];
     events := events w ++ [ImageLoad src; GetContext; ToBlob "image/jpeg" 1;
                            CreateObjectURL (length (object_urls w))] |}.

(** The world after an invocation that made the calls [calls] and then
    failed with [cause]. *)
Definition failed (w : World) (calls : list Event) (cause : Exn) : World :=
  {| app := {| image := image (app w); fileInfo := fileInfo (app w);
               processing := false;
               processedImage := processedImage (app w);
               processedSize := processedSize (app w);
               error := Some generic_failure |};
     object_urls := object_urls w;
     events := events w ++ calls ++ [ConsoleError cause] |}.

(** The three ways a stage of the pipeline fails for the source [src]. *)
Inductive stage_failure (br : Browser) (src : string) : list Event -> Exn -> Prop :=
| decode_fails :
    image_load br src = None ->
    stage_failure br src [ImageLoad src] (ImageErrorEvent src)
| context_unavailable img :
    image_load br src = Some img ->
    getContext_2d br blank_canvas = false ->
    stage_failure br src [ImageLoad src; GetContext] (Error "Canvas context failed")
| encoder_no_output img :
    image_load br src = Some img ->
    getContext_2d br blank_canvas = true ->
    canvas_toBlob br (normalized img) "image/jpeg" 1 = None ->
    stage_failure br src [ImageLoad src; GetContext; ToBlob "image/jpeg" 1]
                  (Error "Blob generation failed").

(** Two events are calls of the same browser service. *)
Definition same_kind (a b : Event) : bool :=
  match a, b with
  | ImageLoad _, ImageLoad _ => true
  | GetContext, GetContext => true
  | ToBlob _ _, ToBlob _ _ => true
  | CreateObjectURL _, CreateObjectURL _ => true
  | ConsoleError _, ConsoleError _ => true
  | _, _ => false
  end.

(** The number of times a call of the same kind as [ev] occurs in [evs]. *)
Definition count_kind (ev : Event) (evs : list Event) : nat :=
  length (List.filter (same_kind ev) evs).

(** The bytes of [final] past the length of [baseline]. *)
Definition padding_region (baseline final : Blob) : list Z :=
  drop (length (blob_bytes baseline)) (blob_bytes final).

(** Every byte of [l] is zero. *)
Definition all_zero (l : list Z) : bool := forallb (Z.eqb 0) l.

(** Every byte of [l] is the same value. *)
Definition all_identical (l : list Z) : bool :=
  match l with
  | [] => true
  | x :: rest => forallb (Z.eqb x) rest
  end.

(** ** Concrete browsers and worlds used to exercise the statements *)

Definition initial_app (src : string) : AppState :=
  {| image := Some src; fileInfo := Some ("photo.png", 1234);
     processing := false; processedImage := None; processedSize := None;
     error := None |}.

Definition initial_world (src : string) : World :=
  {| app := initial_app src; object_urls := []; events := [] |}.

Definition sample_src : string := "data:image/png;base64,iVBORw0KGgo=".

Definition sample_image : SourceImage :=
  {| naturalWidth := 800; naturalHeight := 600; pixels := [] |}.

(** A browser whose JPEG encoder answers with the given bytes. *)
Definition browser_encoding (bytes : list Z) : Browser :=
  {| image_load := fun _ => Some sample_image;
     getContext_2d := fun _ => true;
     canvas_toBlob := fun _ type _ => Some {| blob_bytes := bytes; blob_type := type |} |}.

(** A browser that decodes the image and refuses the 2D context. *)
Definition browser_without_context : Browser :=
  {| image_load := fun _ => Some sample_image;
     getContext_2d := fun _ => false;
     canvas_toBlob := fun _ _ _ => None |}.

(** A four-byte stand-in for a small baseline encode (SOI, EOI). *)
Definition tiny_jpeg : list Z := [255; 216; 255; 217].

Definition tiny_blob : Blob := {| blob_bytes := tiny_jpeg; blob_type := "image/jpeg" |}.

(** A baseline encode one byte short of the target, and one past [maxBytes]. *)
Definition near_target_blob : Blob :=
  {| blob_bytes := replicate (Z.to_nat 204799) 0; blob_type := "image/jpeg" |}.

Definition oversized_blob : Blob :=
  {| blob_bytes := replicate (Z.to_nat 300000) 0; blob_type := "image/jpeg" |}.

(** ** The rest of the component: file picker, download, rendering *)

(** A [File] of the input element: the attributes the handler reads. *)
Record File := mkFile {
  file_name : string;
  file_type : string;
  file_size : Z
}.

(** [s.startsWith(p)] *)
Definition startsWith (s p : string) : bool := String.prefix p s.

(** The message of line 31. *)
Definition upload_error : string := "请上传图片文件 (JPG/PNG)".

(** The anchor element [downloadImage] builds (lines 123-125). *)
Record Link := mkLink { href : nat; download : string }.

(** Children of [document.body]. *)
Inductive Node :=
| Element (tag : string)
| Anchor (link : Link).

#[global] Instance Link_eq_dec : EqDecision Link.
Proof. solve_decision. Defined.

#[global] Instance Node_eq_dec : EqDecision Node.
Proof. solve_decision. Defined.

(** Calls of the two handlers that leave the component. *)
Inductive PageEvent :=
| ReadAsDataURL (file : File)
| LinkClick (link : Link) (attached : bool).

(** The component state together with the document it lives in. *)
Record Page := mkPage {
  world : World;
  body : list Node;
  page_events : list PageEvent
}.

(** Run a state update of the component on the page. *)
Definition exec (m : M unit) (p : Page) : Page :=
  {| world := fst (m (world p)); body := body p; page_events := page_events p |}.

Definition setImage (s : option string) : M unit :=
  update (fun st => {| image := s; fileInfo := fileInfo st;
                       processing := processing st;
                       processedImage := processedImage st;
                       processedSize := processedSize st; error := error st |}).

Definition setFileInfo (i : option (string * Z)) : M unit :=
  update (fun st => {| image := image st; fileInfo := i;
                       processing := processing st;
                       processedImage := processedImage st;
                       processedSize := processedSize st; error := error st |}).

(** [handleFileChange], lines 27-46.  [reader file] is the data URL that
    [reader.onload] receives after [readAsDataURL(file)], or [None] when no
    load event comes (the handler sets no [onerror]). *)
Definition handleFileChange (reader : File -> option string) (files : list File)
           (p : Page) : Page :=
  match head files with
  | None => p
  | Some file =>
      if negb (startsWith (file_type file) "image/")
      then exec (setError (Some upload_error)) p
      else
        let p := {| world := world p; body := body p;
                    page_events := page_events p ++ [ReadAsDataURL file] |} in
        match reader file with
        | None => p
        | Some result =>
            exec (setImage (Some result) ;;;
                  setFileInfo (Some (file_name file, file_size file)) ;;;
                  setProcessedImage None ;;;
                  setProcessedSize None ;;;
                  setError None) p
        end
  end.

(** The name of line 125: [Math.floor(Date.now() / 1000)] is the integer
    quotient of the millisecond clock, printed in decimal. *)
Definition download_name (now : Z) : string :=
  "id_photo_200kb_" +:+ pretty (now `div` 1000) +:+ ".jpg".

(** [downloadImage], lines 121-130.  The link is appended as the last child
    of the body, clicked, and removed from the position it was put at. *)
Definition downloadImage (now : Z) (p : Page) : Page :=
  match processedImage (app (world p)) with
  | None => p
  | Some url =>
      let link := {| href := url; download := download_name now |} in
      let position := length (body p) in
      let appended := body p ++ [Anchor link] in
      let clicked := LinkClick link (bool_decide (Anchor link ∈ appended)) in
      {| world := world p;
         body := delete position appended;
         page_events := page_events p ++ [clicked] |}
  end.

(** What the user does, with the answers the browser gives that time. *)
Inductive Action :=
| ChooseFiles (reader : File -> option string) (files : list File)
| ClickProcess (br : Browser)
| ClickDownload (now : Z).

Definition act (a : Action) (p : Page) : Page :=
  match a with
  | ChooseFiles reader files => handleFileChange reader files p
  | ClickProcess br => exec (processImage br) p
  | ClickDownload now => downloadImage now p
  end.

Definition session (actions : list Action) (p : Page) : Page :=
  foldl (fun p a => act a p) p actions.

(** The initial [useState] values (lines 18-23) in an untouched document. *)
Definition initial_page (nodes : list Node) : Page :=
  {| world := {| app := {| image := None; fileInfo := None; processing := false;
                           processedImage := None; processedSize := None;
                           error := None |};
                 object_urls := []; events := [] |};
     body := nodes; page_events := [] |}.

(** JS truthiness of a [string | null]. *)
Definition truthy (s : option string) : bool :=
  match s with
  | Some s => negb (String.eqb s "")
  | None => false
  end.

(** [(n / 1024).toFixed(1)] for an integer [n]: the quotient is exact in
    binary, and [toFixed] takes the nearest tenth, the larger one on a tie,
    after setting the sign aside. *)
Definition toFixed1_kb (n : Z) : string :=
  let tenths := (10 * Z.abs n + 512) `div` 1024 in
  (if n <? 0 then "-" else "")
  +:+ pretty (tenths `div` 10) +:+ "." +:+ pretty (tenths `mod` 10).

(** The parts of the rendered tree (lines 132-303) that depend on the state. *)
Record View := mkView {
  preview_shown : bool;
  file_line : option (string * string);
  button_disabled : bool;
  button_label : string;
  result_panel : option string;
  download_shown : bool;
  error_banner : option string
}.

Definition render (s : AppState) : View :=
  {| preview_shown := truthy (image s);
     file_line :=
       match fileInfo s with
       | Some (name, size) => Some (name, toFixed1_kb size)
       | None => None
       end;
     button_disabled := negb (truthy (image s)) || processing s;
     button_label := if processing s then "正在处理..." else "调整至约 200KB";
     result_panel :=
       match processedImage s with
       | Some _ => Some (toFixed1_kb (default 0 (processedSize s)))
       | None => None
       end;
     download_shown := bool_decide (is_Some (processedImage s));
     error_banner := if truthy (error s) then error s else None |}.


Section padding_lemmas.

Import Uint8Array.

Lemma byteLength_nonneg (a : list Z) : 0 <= byteLength a.
Proof. unfold byteLength. lia. Qed.

Lemma byteLength_app (a b : list Z) :
  byteLength (a ++ b) = byteLength a + byteLength b.
Proof. unfold byteLength. rewrite length_app. lia. Qed.

Lemma js_rem_mod (i : Z) : 0 <= i -> js_rem i 255 = i `mod` 255.
Proof. intros Hi. unfold js_rem. apply Z.rem_mod_nonneg; lia. Qed.

Lemma to_uint8_filler (i : Z) : to_uint8 (i `mod` 255) = i `mod` 255.
Proof.
  unfold to_uint8. apply Z.mod_small.
  pose proof (Z.mod_pos_bound i 255). lia.
Qed.

Lemma length_store (a : list Z) (i v : Z) : length (store a i v) = length a.
Proof. unfold store. case_match; [apply length_insert | done]. Qed.

Lemma byteLength_store (a : list Z) (i v : Z) :
  byteLength (store a i v) = byteLength a.
Proof. unfold byteLength. by rewrite length_store. Qed.

(** Storing the filler value at the first offset of a tail. *)
Lemma store_middle (pre : list Z) (x : Z) (post : list Z) :
  store (pre ++ x :: post) (byteLength pre) (js_rem (byteLength pre) 255)
  = (pre ++ [byteLength pre `mod` 255]) ++ post.
Proof.
  unfold store.
  pose proof (byteLength_nonneg pre) as Hpre.
  rewrite byteLength_app.
  replace (byteLength (x :: post)) with (1 + byteLength post)
    by (unfold byteLength; simpl length; lia).
  pose proof (byteLength_nonneg post).
  rewrite andb_true_intro by (split; [apply Z.leb_le | apply Z.ltb_lt]; lia).
  rewrite js_rem_mod, to_uint8_filler by done.
  unfold byteLength. rewrite Nat2Z.id.
  replace (length pre) with (length pre + 0)%nat at 1 by lia.
  rewrite insert_app_r. simpl. by rewrite <- app_assoc.
Qed.

(** The loop invariant: the offsets below [i] are final, those from [i] on
    are still to be written. *)
Lemma fill_padding_tail (post pre : list Z) :
  foldl (fun buf i => store buf i (js_rem i 255)) (pre ++ post)
        (seqZ (byteLength pre) (byteLength post))
  = pre ++ filler (byteLength pre) (byteLength post).
Proof.
  revert pre. induction post as [|x post IH]; intros pre.
  - unfold filler. by rewrite seqZ_nil.
  - unfold filler.
    replace (byteLength (x :: post)) with (Z.succ (byteLength post))
      by (unfold byteLength; simpl length; lia).
    pose proof (byteLength_nonneg post).
    rewrite seqZ_cons by lia. rewrite Z.pred_succ. simpl.
    rewrite store_middle.
    replace (Z.succ (byteLength pre))
      with (byteLength (pre ++ [byteLength pre `mod` 255]))
      by (rewrite byteLength_app; unfold byteLength; simpl length; lia).
    rewrite IH. unfold filler. by rewrite <- app_assoc.
Qed.

Lemma fill_padding_app (pre post : list Z) :
  fill_padding (byteLength pre) (pre ++ post)
  = pre ++ filler (byteLength pre) (byteLength post).
Proof.
  unfold fill_padding. rewrite byteLength_app.
  replace (byteLength pre + byteLength post - byteLength pre)
    with (byteLength post) by lia.
  apply fill_padding_tail.
Qed.

(** The padded buffer in closed form; allocation and copy never fail for a
    non-negative padding size. *)
Lemma build_padded_spec (arrayBuffer : list Z) (paddingSize : Z) :
  0 <= paddingSize ->
  build_padded arrayBuffer paddingSize
  = Some (arrayBuffer ++ filler (byteLength arrayBuffer) paddingSize).
Proof.
  intros Hpad. unfold build_padded, new, set.
  pose proof (byteLength_nonneg arrayBuffer) as Hlen.
  destruct (Z.ltb_spec (byteLength arrayBuffer + paddingSize) 0); [lia|].
  assert (Hsplit : replicate (Z.to_nat (byteLength arrayBuffer + paddingSize)) 0
                   = replicate (length arrayBuffer) 0
                     ++ replicate (Z.to_nat paddingSize) 0).
  { rewrite <- replicate_add. f_equal. unfold byteLength. lia. }
  rewrite Hsplit.
  assert (Hpost : byteLength (replicate (Z.to_nat paddingSize) 0) = paddingSize).
  { unfold byteLength. rewrite length_replicate. lia. }
  rewrite byteLength_app, Hpost.
  replace (byteLength (replicate (length arrayBuffer) 0))
    with (byteLength arrayBuffer)
    by (unfold byteLength; by rewrite length_replicate).
  destruct (Z.ltb_spec 0 0); [lia|].
  destruct (Z.ltb_spec (byteLength arrayBuffer + paddingSize)
                       (0 + byteLength arrayBuffer)); [lia|].
  simpl. rewrite list_inserts_0_r by (by rewrite length_replicate).
  rewrite fill_padding_app. by rewrite Hpost.
Qed.

Lemma length_filler (start n : Z) : length (filler start n) = Z.to_nat n.
Proof. unfold filler. by rewrite length_fmap, length_seqZ. Qed.

Lemma byteLength_filler (start n : Z) : 0 <= n -> byteLength (filler start n) = n.
Proof. intros. unfold byteLength. rewrite length_filler. lia. Qed.

Lemma lookup_filler (start n : Z) (k : nat) :
  Z.of_nat k < n ->
  filler start n !! k = Some ((start + Z.of_nat k) `mod` 255).
Proof.
  intros Hk. unfold filler.
  by rewrite list_lookup_fmap, lookup_seqZ_lt.
Qed.

Lemma elem_of_filler (start n v : Z) :
  v ∈ filler start n -> 0 <= v < 255.
Proof.
  unfold filler. intros (i & -> & _)%list_elem_of_fmap.
  apply Z.mod_pos_bound. lia.
Qed.

End padding_lemmas.

(** ** What an invocation of [processImage] leaves behind *)

Ltac unfold_pipeline :=
  unfold processImage_body, normalize, encode, loadImage, getContext, toBlob,
    createObjectURL, console_error, setProcessedImage, setProcessedSize,
    setProcessing, setError, update, emit, try_finally, try_catch, bind,
    throw, ret.

Ltac same_world :=
  unfold failed, published; simpl; rewrite <- ?app_assoc; reflexivity.

Section runs.

Context (br : Browser) (w : World) (src : string).
Hypothesis Himage : selected_image w = Some src.

Lemma processImage_decode_fails :
  image_load br src = None ->
  processImage br w = (failed w [ImageLoad src] (ImageErrorEvent src), Ok tt).
Proof.
  intros Hload. unfold processImage. rewrite Himage.
  unfold_pipeline. simpl. rewrite Hload. same_world.
Qed.

Lemma processImage_context_unavailable (img : SourceImage) :
  image_load br src = Some img ->
  getContext_2d br blank_canvas = false ->
  processImage br w
  = (failed w [ImageLoad src; GetContext] (Error "Canvas context failed"), Ok tt).
Proof.
  intros Hload Hctx. unfold processImage. rewrite Himage.
  unfold_pipeline. simpl. rewrite Hload. simpl.
  fold blank_canvas. rewrite Hctx. same_world.
Qed.

Lemma processImage_encoder_no_output (img : SourceImage) :
  image_load br src = Some img ->
  getContext_2d br blank_canvas = true ->
  canvas_toBlob br (normalized img) "image/jpeg" 1 = None ->
  processImage br w
  = (failed w [ImageLoad src; GetContext; ToBlob "image/jpeg" 1]
            (Error "Blob generation failed"), Ok tt).
Proof.
  intros Hload Hctx Hblob. unfold processImage. rewrite Himage.
  unfold_pipeline. simpl. rewrite Hload. simpl.
  fold blank_canvas. rewrite Hctx. simpl.
  fold (normalized img). rewrite Hblob. same_world.
Qed.

(** The padding step never throws and yields the closed form. *)
Lemma pad_to_target_spec (baseline : Blob) (w0 : World) :
  pad_to_target baseline (size baseline) w0
  = (w0, Ok (size_targeted baseline, size (size_targeted baseline))).
Proof.
  unfold pad_to_target, size_targeted.
  destruct (Z.ltb_spec (size baseline) targetSizeInBytes) as [Hlt|Hge]; [|done].
  destruct (Z.ltb_spec 0 (targetSizeInBytes - size baseline)); [|lia].
  unfold size at 2. rewrite build_padded_spec by lia. done.
Qed.

Lemma processImage_publishes (img : SourceImage) (baseline : Blob) :
  image_load br src = Some img ->
  getContext_2d br blank_canvas = true ->
  canvas_toBlob br (normalized img) "image/jpeg" 1 = Some baseline ->
  processImage br w = (published w src (size_targeted baseline), Ok tt).
Proof.
  intros Hload Hctx Hblob. unfold processImage. rewrite Himage.
  unfold_pipeline. simpl. rewrite Hload. simpl.
  fold blank_canvas. rewrite Hctx. simpl.
  fold (normalized img). rewrite Hblob, pad_to_target_spec. same_world.
Qed.

End runs.

Lemma artifact_published (w : World) (src : string) (final : Blob) :
  artifact (published w src final) = Some final.
Proof.
  unfold artifact, published. simpl.
  rewrite lookup_app_r by lia. by rewrite Nat.sub_diag.
Qed.

Lemma artifact_failed (w : World) (calls : list Event) (cause : Exn) :
  artifact (failed w calls cause) = artifact w.
Proof. reflexivity. Qed.

Lemma processImage_without_image (br : Browser) (w : World) :
  selected_image w = None -> processImage br w = (w, Ok tt).
Proof. intros H. unfold processImage. by rewrite H. Qed.

(** Every invocation on a selected image either publishes the size-targeted
    baseline or fails at one of the three stages. *)
Lemma processImage_cases (br : Browser) (w : World) (src : string) :
  selected_image w = Some src ->
  (exists img baseline,
      image_load br src = Some img /\
      getContext_2d br blank_canvas = true /\
      canvas_toBlob br (normalized img) "image/jpeg" 1 = Some baseline /\
      processImage br w = (published w src (size_targeted baseline), Ok tt))
  \/ (exists calls cause,
      stage_failure br src calls cause /\
      processImage br w = (failed w calls cause, Ok tt)).
Proof.
  intros Himage.
  destruct (image_load br src) as [img|] eqn:Hload.
  - destruct (getContext_2d br blank_canvas) eqn:Hctx.
    + destruct (canvas_toBlob br (normalized img) "image/jpeg" 1)
        as [baseline|] eqn:Hblob.
      * left. exists img, baseline.
        eauto using processImage_publishes.
      * right. do 2 eexists. split.
        -- eapply encoder_no_output; eauto.
        -- eauto using processImage_encoder_no_output.
    + right. do 2 eexists. split.
      * eapply context_unavailable; eauto.
      * eauto using processImage_context_unavailable.
  - right. do 2 eexists. split.
    + by apply decode_fails.
    + by apply processImage_decode_fails.
Qed.

Lemma processImage_stage_failure (br : Browser) (w : World) (src : string)
      (calls : list Event) (cause : Exn) :
  selected_image w = Some src ->
  stage_failure br src calls cause ->
  processImage br w = (failed w calls cause, Ok tt).
Proof.
  intros Himage Hfail. destruct Hfail.
  - by apply processImage_decode_fails.
  - by eapply processImage_context_unavailable.
  - by eapply processImage_encoder_no_output.
Qed.

(** *** Facts about the size-targeted blob *)

Lemma targetSizeInBytes_value : targetSizeInBytes = 204800.
Proof. reflexivity. Qed.

Lemma size_targeted_small (baseline : Blob) :
  size baseline < targetSizeInBytes ->
  blob_bytes (size_targeted baseline)
  = blob_bytes baseline ++ filler (size baseline) (targetSizeInBytes - size baseline).
Proof.
  intros Hlt. unfold size_targeted.
  by destruct (Z.ltb_spec (size baseline) targetSizeInBytes); [|lia].
Qed.

Lemma size_targeted_large (baseline : Blob) :
  targetSizeInBytes <= size baseline -> size_targeted baseline = baseline.
Proof.
  intros Hge. unfold size_targeted.
  by destruct (Z.ltb_spec (size baseline) targetSizeInBytes); [lia|].
Qed.

Lemma padding_region_small (baseline : Blob) :
  size baseline < targetSizeInBytes ->
  padding_region baseline (size_targeted baseline)
  = filler (size baseline) (targetSizeInBytes - size baseline).
Proof.
  intros Hlt. unfold padding_region.
  rewrite size_targeted_small by done. apply drop_app_length.
Qed.

(** The byte at an absolute offset inside the padding. *)
Lemma lookup_size_targeted_padding (baseline : Blob) (i : Z) :
  size baseline <= i < targetSizeInBytes ->
  blob_bytes (size_targeted baseline) !! Z.to_nat i = Some (i `mod` 255).
Proof.
  intros [Hlo Hhi]. rewrite size_targeted_small by lia.
  unfold size, Uint8Array.byteLength in *.
  rewrite lookup_app_r by lia.
  rewrite lookup_filler by lia. do 2 f_equal. lia.
Qed.

Lemma consecutive_residues (a : Z) : a `mod` 255 <> (a + 1) `mod` 255.
Proof.
  pose proof (Z.div_mod a 255). pose proof (Z.div_mod (a + 1) 255).
  pose proof (Z.mod_pos_bound a 255). pose proof (Z.mod_pos_bound (a + 1) 255).
  lia.
Qed.

Lemma forallb_refuted {A} (f : A -> bool) (l : list A) (x : A) :
  x ∈ l -> f x = false -> forallb f l = false.
Proof.
  intros Hx Hf. destruct (forallb f l) eqn:Hall; [|done].
  rewrite forallb_forall in Hall.
  apply list_elem_of_In, Hall in Hx. congruence.
Qed.

(** ** The size-targeting encoder on a baseline encode *)

Section encoder.

Context (br : Browser) (w : World) (src : string) (img : SourceImage)
        (baseline : Blob).
Hypothesis Himage : selected_image w = Some src.
Hypothesis Hload : image_load br src = Some img.
Hypothesis Hctx : getContext_2d br blank_canvas = true.
Hypothesis Hblob : canvas_toBlob br (normalized img) "image/jpeg" 1 = Some baseline.

Lemma run_publishes : run br w = published w src (size_targeted baseline).
Proof. unfold run. by erewrite processImage_publishes. Qed.

Lemma artifact_run : artifact (run br w) = Some (size_targeted baseline).
Proof. rewrite run_publishes. apply artifact_published. Qed.

(** C1. When the baseline encode is shorter than [targetSizeInBytes]
    (200 * 1024 = 204800), the published artifact is exactly
    [targetSizeInBytes] bytes long, that is [L0 + (targetSizeInBytes - L0)],
    and that length is what [processedSize] reports. *)
Theorem exact_hit :
  size baseline < targetSizeInBytes ->
  exists final,
    artifact (run br w) = Some final /\
    size final = targetSizeInBytes /\
    size final = size baseline + (targetSizeInBytes - size baseline) /\
    targetSizeInBytes = 200 * 1024 /\
    processedSize (app (run br w)) = Some targetSizeInBytes.
Proof.
  intros Hlt. exists (size_targeted baseline).
  assert (Hsize : size (size_targeted baseline) = targetSizeInBytes).
  { unfold size at 1. rewrite size_targeted_small by done.
    rewrite byteLength_app, byteLength_filler by lia.
    unfold size. lia. }
  split; [apply artifact_run|].
  repeat split; [done | lia | ].
  rewrite run_publishes. simpl. by rewrite Hsize.
Qed.

(** C2. When the baseline encode is at least [targetSizeInBytes] bytes long,
    equality included, the published artifact is the baseline blob itself:
    same bytes, length [L0], and an empty padding region. *)
Theorem passthrough :
  targetSizeInBytes <= size baseline ->
  exists final,
    artifact (run br w) = Some final /\
    final = baseline /\
    blob_bytes final = blob_bytes baseline /\
    size final = size baseline /\
    padding_region baseline final = [] /\
    processedSize (app (run br w)) = Some (size baseline).
Proof.
  intros Hge. exists baseline.
  pose proof artifact_run as Hart.
  rewrite size_targeted_large in Hart by done.
  split; [done|]. repeat split.
  - apply drop_all.
  - rewrite run_publishes, size_targeted_large by done. done.
Qed.

(** C3. When the baseline encode is shorter than [targetSizeInBytes], the
    artifact starts with the baseline bytes, byte for byte, and continues
    with [targetSizeInBytes - L0] bytes that come after the last byte of the
    compressed stream. *)
Theorem baseline_prefix :
  size baseline < targetSizeInBytes ->
  exists final,
    artifact (run br w) = Some final /\
    take (length (blob_bytes baseline)) (blob_bytes final) = blob_bytes baseline /\
    (forall k, (k < length (blob_bytes baseline))%nat ->
               blob_bytes final !! k = blob_bytes baseline !! k) /\
    blob_bytes final = blob_bytes baseline ++ padding_region baseline final /\
    Uint8Array.byteLength (padding_region baseline final)
    = targetSizeInBytes - size baseline.
Proof.
  intros Hlt. exists (size_targeted baseline).
  split; [apply artifact_run|].
  rewrite padding_region_small by done.
  rewrite size_targeted_small by done.
  split; [apply take_app_length|].
  split; [intros k Hk; by apply lookup_app_l|].
  split; [done|]. apply byteLength_filler. lia.
Qed.

(** C5. With at least two bytes of padding, the padding region holds two
    different byte values. *)
Theorem non_degenerate_filler :
  2 <= targetSizeInBytes - size baseline ->
  exists final i j vi vj,
    artifact (run br w) = Some final /\
    size baseline <= i < targetSizeInBytes /\
    size baseline <= j < targetSizeInBytes /\
    blob_bytes final !! Z.to_nat i = Some vi /\
    blob_bytes final !! Z.to_nat j = Some vj /\
    vi <> vj.
Proof.
  intros Hpad.
  exists (size_targeted baseline), (size baseline), (size baseline + 1).
  do 2 eexists. split; [apply artifact_run|].
  split; [lia|]. split; [lia|].
  split; [apply lookup_size_targeted_padding; lia|].
  split; [apply lookup_size_targeted_padding; lia|].
  apply consecutive_residues.
Qed.

(** C10. Every filler byte lies in [0, 254]: the value 255 occurs nowhere in
    the padding region, whose length is [targetSizeInBytes - L0]. *)
Theorem filler_below_255 :
  size baseline < targetSizeInBytes ->
  exists final,
    artifact (run br w) = Some final /\
    Uint8Array.byteLength (padding_region baseline final)
    = targetSizeInBytes - size baseline /\
    Forall (fun v => 0 <= v <= 254) (padding_region baseline final) /\
    (255 ∉ padding_region baseline final) /\
    forall i, size baseline <= i < targetSizeInBytes ->
              exists v, blob_bytes final !! Z.to_nat i = Some v /\ 0 <= v <= 254.
Proof.
  intros Hlt. exists (size_targeted baseline).
  split; [apply artifact_run|].
  rewrite padding_region_small by done.
  split; [apply byteLength_filler; lia|].
  split.
  { apply Forall_forall. intros v Hv%elem_of_filler. lia. }
  split.
  { intros Hv%elem_of_filler. lia. }
  intros i Hi. exists (i `mod` 255).
  split; [by apply lookup_size_targeted_padding|].
  pose proof (Z.mod_pos_bound i 255). lia.
Qed.

(** C4, as the code has it.  In a padded artifact the byte at every offset
    [i] with [L0 <= i < targetSizeInBytes] is [i mod 255]; the padding is
    never all zero; and it is not one repeated value as soon as it is two
    bytes long or more (a padding of one byte is a single value). *)
Theorem filler_rule :
  size baseline < targetSizeInBytes ->
  exists final,
    artifact (run br w) = Some final /\
    (forall i, size baseline <= i < targetSizeInBytes ->
               blob_bytes final !! Z.to_nat i = Some (i `mod` 255)) /\
    all_zero (padding_region baseline final) = false /\
    (2 <= targetSizeInBytes - size baseline ->
     all_identical (padding_region baseline final) = false).
Proof.
  intros Hlt. exists (size_targeted baseline).
  split; [apply artifact_run|].
  split; [intros i Hi; by apply lookup_size_targeted_padding|].
  rewrite padding_region_small by done.
  pose proof (byteLength_nonneg (blob_bytes baseline)) as Hlen.
  fold (size baseline) in Hlen.
  split.
  - apply forallb_refuted with (x := 34); [|done].
    apply list_elem_of_lookup.
    exists (Z.to_nat (targetSizeInBytes - size baseline - 1)).
    rewrite lookup_filler by lia.
    replace (size baseline + Z.of_nat (Z.to_nat (targetSizeInBytes - size baseline - 1)))
      with 204799 by (rewrite targetSizeInBytes_value in *; lia).
    done.
  - intros Hpad. unfold filler. rewrite seqZ_cons by lia. simpl.
    apply forallb_refuted with (x := (size baseline + 1) `mod` 255).
    + apply list_elem_of_fmap. exists (size baseline + 1). split; [done|].
      apply elem_of_seqZ. lia.
    + apply Z.eqb_neq, consecutive_residues.
Qed.

End encoder.

(** ** The raster normaliser *)

Lemma normalize_ok (br : Browser) (w0 : World) (src : string) (img : SourceImage) :
  image_load br src = Some img ->
  getContext_2d br blank_canvas = true ->
  normalize br src w0
  = ({| app := app w0; object_urls := object_urls w0;
        events := events w0 ++ [ImageLoad src; GetContext] |}, Ok (normalized img)).
Proof.
  intros Hload Hctx. unfold_pipeline. simpl. rewrite Hload. simpl.
  fold blank_canvas. rewrite Hctx. simpl. fold (normalized img).
  by rewrite <- app_assoc.
Qed.

Lemma in_rect_origin (wd ht px py : Z) :
  in_rect 0 0 wd ht px py = true <-> 0 <= px < wd /\ 0 <= py < ht.
Proof.
  unfold in_rect. rewrite !andb_true_iff, !Z.leb_le, !Z.ltb_lt. lia.
Qed.

(** C6, as the code has it.  For a source that decodes and a canvas that
    grants its 2D context, the normaliser returns a raster of exactly
    [TARGET_WIDTH] x [TARGET_HEIGHT] = 295 x 413 pixels on which two
    operations were painted: a white fill, then the whole source image
    mapped from the origin onto the whole canvas.  Each operation paints
    exactly the pixels of the canvas, so nothing is cut off and no border is
    left; the two scale factors agree only for a source whose proportions
    are already 295 : 413. *)
Theorem normalizer_raster (br : Browser) (w0 : World) (src : string)
        (img : SourceImage) :
  image_load br src = Some img ->
  getContext_2d br blank_canvas = true ->
  exists w1 raster,
    normalize br src w0 = (w1, Ok raster) /\
    width raster = TARGET_WIDTH /\ height raster = TARGET_HEIGHT /\
    TARGET_WIDTH = 295 /\ TARGET_HEIGHT = 413 /\
    ops raster
    = [FillRect "#FFFFFF" 0 0 (width raster) (height raster);
       DrawImage img 0 0 (naturalWidth img) (naturalHeight img)
                     0 0 (width raster) (height raster)] /\
    Forall (fun op => forall px py, paints op px py = on_canvas raster px py)
           (ops raster) /\
    (forall px py, on_canvas raster px py = true <-> 0 <= px < 295 /\ 0 <= py < 413) /\
    exists fill draw,
      ops raster = [fill; draw] /\
      reads_whole_image draw = true /\
      uniform_scale draw = (295 * naturalHeight img =? 413 * naturalWidth img).
Proof.
  intros Hload Hctx. do 2 eexists.
  split; [by apply normalize_ok|].
  split_and!; try done.
  - repeat constructor.
  - intros px py. apply in_rect_origin.
  - do 2 eexists. split; [done|]. simpl. by rewrite !Z.eqb_refl.
Qed.

(** ** Determinism, bounds and failures *)

Lemma image_published (w : World) (src : string) (final : Blob) :
  selected_image (published w src final) = selected_image w.
Proof. reflexivity. Qed.

(** C7. Two invocations whose baseline encodes of the same raster are the
    same blob publish byte-identical artifacts and report the same size,
    whatever the browser, the world or the image source they start from; in
    particular invoking the pipeline again in the world the first invocation
    left behind publishes the same artifact. *)
Theorem encoder_deterministic (br1 br2 : Browser) (w1 w2 : World)
        (src1 src2 : string) (img : SourceImage) (baseline : Blob) :
  selected_image w1 = Some src1 ->
  selected_image w2 = Some src2 ->
  image_load br1 src1 = Some img ->
  image_load br2 src2 = Some img ->
  getContext_2d br1 blank_canvas = true ->
  getContext_2d br2 blank_canvas = true ->
  canvas_toBlob br1 (normalized img) "image/jpeg" 1 = Some baseline ->
  canvas_toBlob br2 (normalized img) "image/jpeg" 1 = Some baseline ->
  artifact (run br1 w1) = artifact (run br2 w2) /\
  is_Some (artifact (run br1 w1)) /\
  processedSize (app (run br1 w1)) = processedSize (app (run br2 w2)) /\
  artifact (run br1 (run br1 w1)) = artifact (run br1 w1).
Proof.
  intros Hi1 Hi2 Hl1 Hl2 Hc1 Hc2 Hb1 Hb2.
  pose proof (run_publishes br1 w1 src1 img baseline Hi1 Hl1 Hc1 Hb1) as Hr1.
  pose proof (run_publishes br2 w2 src2 img baseline Hi2 Hl2 Hc2 Hb2) as Hr2.
  assert (Hagain : run br1 (run br1 w1)
                   = published (run br1 w1) src1 (size_targeted baseline)).
  { apply (run_publishes br1 (run br1 w1) src1 img baseline); try done.
    by rewrite Hr1, image_published. }
  rewrite Hagain, Hr1, Hr2, !artifact_published.
  repeat split; eauto.
Qed.

(** C8. [minBytes] (150 * 1024) and [maxBytes] (250 * 1024) play no part in
    the outcome: an invocation reports an error exactly when one of the three
    stages fails, and every baseline encode is published without error; when
    its length exceeds [maxBytes] the artifact is that baseline, still longer
    than [maxBytes]. *)
Theorem bounds_informational (br : Browser) (w : World) (src : string) :
  selected_image w = Some src ->
  minBytes = 150 * 1024 /\ maxBytes = 250 * 1024 /\
  snd (processImage br w) = Ok tt /\
  (error (app (run br w)) <> None <->
   exists calls cause, stage_failure br src calls cause) /\
  forall img baseline,
    image_load br src = Some img ->
    getContext_2d br blank_canvas = true ->
    canvas_toBlob br (normalized img) "image/jpeg" 1 = Some baseline ->
    error (app (run br w)) = None /\
    exists final,
      artifact (run br w) = Some final /\
      (maxBytes < size baseline ->
       final = baseline /\ size final = size baseline /\ maxBytes < size final).
Proof.
  intros Himage. split; [done|]. split; [done|].
  split; [|split].
  - destruct (processImage_cases br w src Himage)
      as [(img & baseline & _ & _ & _ & ->)|(calls & cause & _ & ->)]; done.
  - split.
    + intros Herr.
      destruct (processImage_cases br w src Himage)
        as [(img & baseline & _ & _ & _ & Hrun)|(calls & cause & Hfail & _)].
      * unfold run in Herr. rewrite Hrun in Herr. done.
      * eauto.
    + intros (calls & cause & Hfail). unfold run.
      by rewrite (processImage_stage_failure br w src calls cause).
  - intros img baseline Hload Hctx Hblob.
    rewrite (run_publishes br w src img baseline) by done.
    split; [done|]. exists (size_targeted baseline).
    split; [apply artifact_published|].
    intros Hbig. rewrite size_targeted_large; [done|].
    unfold maxBytes, MAX_KB in Hbig. rewrite targetSizeInBytes_value. lia.
Qed.

(** C9. When a stage fails (the image does not decode, the 2D context is not
    granted, or the encoder hands back no blob) the invocation ends normally
    with the one generic message in [error], whatever the cause; it writes
    neither [processedImage] nor [processedSize], creates no object URL, logs
    the cause once, and has made each browser call at most once.  Every
    invocation on a selected image ends in one of two worlds: the published
    one, with a complete artifact and no error, or the failed one. *)
Theorem all_or_nothing (br : Browser) (w : World) (src : string)
        (calls : list Event) (cause : Exn) :
  selected_image w = Some src ->
  stage_failure br src calls cause ->
  snd (processImage br w) = Ok tt /\
  error (app (run br w)) = Some generic_failure /\
  processing (app (run br w)) = false /\
  processedImage (app (run br w)) = processedImage (app w) /\
  processedSize (app (run br w)) = processedSize (app w) /\
  object_urls (run br w) = object_urls w /\
  artifact (run br w) = artifact w /\
  events (run br w) = events w ++ calls ++ [ConsoleError cause] /\
  (forall ev, (count_kind ev (calls ++ [ConsoleError cause]) <= 1)%nat) /\
  forall br' : Browser,
    (exists final,
        run br' w = published w src final /\
        artifact (run br' w) = Some final /\
        processedSize (app (run br' w)) = Some (size final) /\
        error (app (run br' w)) = None)
    \/ (exists calls' cause',
        stage_failure br' src calls' cause' /\ run br' w = failed w calls' cause').
Proof.
  intros Himage Hfail. unfold run.
  rewrite (processImage_stage_failure br w src calls cause) by done.
  split_and!; try done.
  - intros ev. unfold count_kind. destruct Hfail, ev; simpl; lia.
  - intros br'.
    destruct (processImage_cases br' w src Himage)
      as [(img & baseline & _ & _ & _ & ->)|(calls' & cause' & Hfail' & ->)].
    + left. exists (size_targeted baseline).
      split; [done|]. split; [apply artifact_published|]. done.
    + right. eauto.
Qed.

(** ** The model on concrete inputs *)

Example build_padded_tiny :
  build_padded tiny_jpeg 5 = Some [255; 216; 255; 217; 4; 5; 6; 7; 8].
Proof. reflexivity. Qed.

Example build_padded_wraps_at_255 :
  drop 253 <$> build_padded (replicate 253 7) 4 = Some [253; 254; 0; 1].
Proof. vm_compute. reflexivity. Qed.

Example fill_padding_from_offset : fill_padding 2 [9; 9; 0; 0] = [9; 9; 2; 3].
Proof. reflexivity. Qed.

Example store_out_of_range : Uint8Array.store [1; 2] 2 77 = [1; 2].
Proof. reflexivity. Qed.

Example store_converts_to_uint8 : Uint8Array.store [1; 2] 1 300 = [1; 44].
Proof. reflexivity. Qed.

Example run_without_context :
  run browser_without_context (initial_world sample_src)
  = failed (initial_world sample_src) [ImageLoad sample_src; GetContext]
           (Error "Canvas context failed").
Proof. vm_compute. reflexivity. Qed.

Example returns_at_once_without_image :
  processImage browser_without_context
               {| app := {| image := Some ""; fileInfo := None; processing := false;
                            processedImage := None; processedSize := None;
                            error := Some "old" |};
                  object_urls := []; events := [] |}
  = ({| app := {| image := Some ""; fileInfo := None; processing := false;
                  processedImage := None; processedSize := None;
                  error := Some "old" |};
        object_urls := []; events := [] |}, Ok tt).
Proof. reflexivity. Qed.

Example passthrough_runs :
  size <$> artifact (run (browser_encoding (blob_bytes oversized_blob))
                         (initial_world sample_src))
  = Some 300000.
Proof. vm_compute. reflexivity. Qed.

Example sample_image_is_distorted :
  uniform_scale <$> last (ops (normalized sample_image)) = Some false.
Proof. reflexivity. Qed.

Example size_near_target : size near_target_blob = 204799.
Proof. vm_compute. reflexivity. Qed.

Example size_oversized : size oversized_blob = 300000.
Proof. vm_compute. reflexivity. Qed.

(** ** Instances of the statements *)

Lemma exact_hit_witness :
  size tiny_blob < targetSizeInBytes /\
  exists final,
    artifact (run (browser_encoding tiny_jpeg) (initial_world sample_src)) = Some final /\
    size final = targetSizeInBytes /\
    size final = size tiny_blob + (targetSizeInBytes - size tiny_blob) /\
    targetSizeInBytes = 200 * 1024 /\
    processedSize (app (run (browser_encoding tiny_jpeg) (initial_world sample_src)))
    = Some targetSizeInBytes.
Proof.
  split; [reflexivity|].
  apply (exact_hit (browser_encoding tiny_jpeg) (initial_world sample_src)
                   sample_src sample_image tiny_blob); reflexivity.
Defined.

Lemma passthrough_witness :
  targetSizeInBytes <= size oversized_blob /\
  exists final,
    artifact (run (browser_encoding (blob_bytes oversized_blob))
                  (initial_world sample_src)) = Some final /\
    final = oversized_blob /\
    blob_bytes final = blob_bytes oversized_blob /\
    size final = size oversized_blob /\
    padding_region oversized_blob final = [] /\
    processedSize (app (run (browser_encoding (blob_bytes oversized_blob))
                            (initial_world sample_src)))
    = Some (size oversized_blob).
Proof.
  assert (Hge : targetSizeInBytes <= size oversized_blob) by (by vm_compute).
  split; [exact Hge|].
  apply (passthrough (browser_encoding (blob_bytes oversized_blob))
                     (initial_world sample_src) sample_src sample_image
                     oversized_blob); [reflexivity .. | exact Hge].
Defined.

Lemma baseline_prefix_witness :
  size tiny_blob < targetSizeInBytes /\
  exists final,
    artifact (run (browser_encoding tiny_jpeg) (initial_world sample_src)) = Some final /\
    take (length (blob_bytes tiny_blob)) (blob_bytes final) = blob_bytes tiny_blob /\
    (forall k, (k < length (blob_bytes tiny_blob))%nat ->
               blob_bytes final !! k = blob_bytes tiny_blob !! k) /\
    blob_bytes final = blob_bytes tiny_blob ++ padding_region tiny_blob final /\
    Uint8Array.byteLength (padding_region tiny_blob final)
    = targetSizeInBytes - size tiny_blob.
Proof.
  split; [reflexivity|].
  apply (baseline_prefix (browser_encoding tiny_jpeg) (initial_world sample_src)
                         sample_src sample_image tiny_blob); reflexivity.
Defined.

Lemma filler_rule_witness :
  size tiny_blob < targetSizeInBytes /\
  exists final,
    artifact (run (browser_encoding tiny_jpeg) (initial_world sample_src)) = Some final /\
    (forall i, size tiny_blob <= i < targetSizeInBytes ->
               blob_bytes final !! Z.to_nat i = Some (i `mod` 255)) /\
    all_zero (padding_region tiny_blob final) = false /\
    (2 <= targetSizeInBytes - size tiny_blob ->
     all_identical (padding_region tiny_blob final) = false).
Proof.
  split; [reflexivity|].
  apply (filler_rule (browser_encoding tiny_jpeg) (initial_world sample_src)
                     sample_src sample_image tiny_blob); reflexivity.
Defined.

Lemma non_degenerate_filler_witness :
  2 <= targetSizeInBytes - size tiny_blob /\
  exists final i j vi vj,
    artifact (run (browser_encoding tiny_jpeg) (initial_world sample_src)) = Some final /\
    size tiny_blob <= i < targetSizeInBytes /\
    size tiny_blob <= j < targetSizeInBytes /\
    blob_bytes final !! Z.to_nat i = Some vi /\
    blob_bytes final !! Z.to_nat j = Some vj /\
    vi <> vj.
Proof.
  assert (Hpad : 2 <= targetSizeInBytes - size tiny_blob) by (by vm_compute).
  split; [exact Hpad|].
  apply (non_degenerate_filler (browser_encoding tiny_jpeg) (initial_world sample_src)
                               sample_src sample_image tiny_blob);
    [reflexivity .. | exact Hpad].
Defined.

Lemma filler_below_255_witness :
  size tiny_blob < targetSizeInBytes /\
  exists final,
    artifact (run (browser_encoding tiny_jpeg) (initial_world sample_src)) = Some final /\
    Uint8Array.byteLength (padding_region tiny_blob final)
    = targetSizeInBytes - size tiny_blob /\
    Forall (fun v => 0 <= v <= 254) (padding_region tiny_blob final) /\
    (255 ∉ padding_region tiny_blob final) /\
    forall i, size tiny_blob <= i < targetSizeInBytes ->
              exists v, blob_bytes final !! Z.to_nat i = Some v /\ 0 <= v <= 254.
Proof.
  split; [reflexivity|].
  apply (filler_below_255 (browser_encoding tiny_jpeg) (initial_world sample_src)
                          sample_src sample_image tiny_blob); reflexivity.
Defined.

Lemma normalizer_raster_witness :
  image_load (browser_encoding tiny_jpeg) sample_src = Some sample_image /\
  getContext_2d (browser_encoding tiny_jpeg) blank_canvas = true /\
  exists w1 raster,
    normalize (browser_encoding tiny_jpeg) sample_src (initial_world sample_src)
    = (w1, Ok raster) /\
    width raster = TARGET_WIDTH /\ height raster = TARGET_HEIGHT /\
    TARGET_WIDTH = 295 /\ TARGET_HEIGHT = 413 /\
    ops raster
    = [FillRect "#FFFFFF" 0 0 (width raster) (height raster);
       DrawImage sample_image 0 0 (naturalWidth sample_image)
                 (naturalHeight sample_image) 0 0 (width raster) (height raster)] /\
    Forall (fun op => forall px py, paints op px py = on_canvas raster px py)
           (ops raster) /\
    (forall px py, on_canvas raster px py = true <-> 0 <= px < 295 /\ 0 <= py < 413) /\
    exists fill draw,
      ops raster = [fill; draw] /\
      reads_whole_image draw = true /\
      uniform_scale draw
      = (295 * naturalHeight sample_image =? 413 * naturalWidth sample_image).
Proof.
  split; [reflexivity|]. split; [reflexivity|].
  apply (normalizer_raster (browser_encoding tiny_jpeg) (initial_world sample_src)
                           sample_src sample_image); reflexivity.
Defined.

(** C6 as worded, with decoding as the only condition, fails: the image
    decodes, the context is refused (line 66), and no raster comes out. *)
Lemma decoded_image_without_raster :
  image_load browser_without_context sample_src = Some sample_image /\
  normalize browser_without_context sample_src (initial_world sample_src)
  = ({| app := initial_app sample_src; object_urls := [];
        events := [ImageLoad sample_src; GetContext] |},
     Throw (Error "Canvas context failed")) /\
  (forall w1 raster,
      normalize browser_without_context sample_src (initial_world sample_src)
      <> (w1, Ok raster)) /\
  artifact (run browser_without_context (initial_world sample_src)) = None.
Proof.
  split; [reflexivity|]. split; [reflexivity|]. split; [|reflexivity].
  intros w1 raster H. vm_compute in H. discriminate H.
Qed.

(** C4 as worded fails on its last clause: with a baseline of 204799 bytes
    the padding is the single byte at offset 204799, that is [34], and a
    one-byte padding is one repeated value. *)
Lemma one_byte_filler_is_constant :
  size near_target_blob < targetSizeInBytes /\
  exists final,
    artifact (run (browser_encoding (blob_bytes near_target_blob))
                  (initial_world sample_src)) = Some final /\
    padding_region near_target_blob final = [34] /\
    all_identical (padding_region near_target_blob final) = true.
Proof.
  assert (Hlt : size near_target_blob < targetSizeInBytes) by (by vm_compute).
  split; [exact Hlt|].
  exists (size_targeted near_target_blob). split.
  - by apply (artifact_run _ _ sample_src sample_image).
  - rewrite padding_region_small by exact Hlt.
    rewrite size_near_target. split; reflexivity.
Qed.

Lemma encoder_deterministic_witness :
  artifact (run (browser_encoding tiny_jpeg) (initial_world sample_src))
  = artifact (run (browser_encoding tiny_jpeg)
                  (failed (initial_world "blob:other") [] RangeError)) /\
  is_Some (artifact (run (browser_encoding tiny_jpeg) (initial_world sample_src))) /\
  processedSize (app (run (browser_encoding tiny_jpeg) (initial_world sample_src)))
  = processedSize (app (run (browser_encoding tiny_jpeg)
                            (failed (initial_world "blob:other") [] RangeError))) /\
  artifact (run (browser_encoding tiny_jpeg)
                (run (browser_encoding tiny_jpeg) (initial_world sample_src)))
  = artifact (run (browser_encoding tiny_jpeg) (initial_world sample_src)).
Proof.
  apply (encoder_deterministic
           (browser_encoding tiny_jpeg) (browser_encoding tiny_jpeg)
           (initial_world sample_src)
           (failed (initial_world "blob:other") [] RangeError)
           sample_src "blob:other" sample_image tiny_blob); reflexivity.
Defined.

Lemma bounds_informational_witness :
  selected_image (initial_world sample_src) = Some sample_src /\
  error (app (run (browser_encoding (blob_bytes oversized_blob))
                  (initial_world sample_src))) = None /\
  exists final,
    artifact (run (browser_encoding (blob_bytes oversized_blob))
                  (initial_world sample_src)) = Some final /\
    (maxBytes < size oversized_blob ->
     final = oversized_blob /\ size final = size oversized_blob /\
     maxBytes < size final).
Proof.
  split; [reflexivity|].
  destruct (bounds_informational (browser_encoding (blob_bytes oversized_blob))
                                 (initial_world sample_src) sample_src eq_refl)
    as (_ & _ & _ & _ & Hpublished).
  apply (Hpublished sample_image oversized_blob); reflexivity.
Defined.

Lemma all_or_nothing_witness :
  stage_failure browser_without_context sample_src
                [ImageLoad sample_src; GetContext] (Error "Canvas context failed") /\
  error (app (run browser_without_context (initial_world sample_src)))
  = Some generic_failure /\
  artifact (run browser_without_context (initial_world sample_src)) = None.
Proof.
  assert (Hfail : stage_failure browser_without_context sample_src
                    [ImageLoad sample_src; GetContext]
                    (Error "Canvas context failed")).
  { apply (context_unavailable _ _ sample_image); reflexivity. }
  split; [exact Hfail|].
  pose proof (all_or_nothing browser_without_context (initial_world sample_src)
                             sample_src _ _ eq_refl Hfail) as H.
  split; [apply H|].
  destruct H as (_ & _ & _ & _ & _ & _ & -> & _). reflexivity.
Defined.

(** ** Further properties of the padding code (lines 90-107) *)

(** X1. Lines 96-103 fail (a RangeError from the allocation or from the
    copy) exactly for a negative padding size; otherwise they return the
    input bytes followed by the filler, [paddingSize] bytes longer. *)
Theorem build_padded_range_error (arrayBuffer : list Z) (paddingSize : Z) :
  (build_padded arrayBuffer paddingSize = None <-> paddingSize < 0) /\
  (0 <= paddingSize ->
   exists out,
     build_padded arrayBuffer paddingSize = Some out /\
     Uint8Array.byteLength out = Uint8Array.byteLength arrayBuffer + paddingSize /\
     take (length arrayBuffer) out = arrayBuffer) /\
  (paddingSize = 0 -> build_padded arrayBuffer paddingSize = Some arrayBuffer).
Proof.
  pose proof (byteLength_nonneg arrayBuffer) as Hlen.
  split_and!.
  - split.
    + intros Hnone. destruct (Z.lt_ge_cases paddingSize 0) as [|Hge]; [done|].
      rewrite build_padded_spec in Hnone by done. done.
    + intros Hneg. unfold build_padded, Uint8Array.new, Uint8Array.set.
      destruct (Z.ltb_spec (Uint8Array.byteLength arrayBuffer + paddingSize) 0);
        [done|].
      destruct (Z.ltb_spec 0 0); [lia|]. simpl.
      replace (Uint8Array.byteLength
                 (replicate (Z.to_nat (Uint8Array.byteLength arrayBuffer + paddingSize)) 0))
        with (Uint8Array.byteLength arrayBuffer + paddingSize)
        by (unfold Uint8Array.byteLength in *; rewrite length_replicate; lia).
      by destruct (Z.ltb_spec (Uint8Array.byteLength arrayBuffer + paddingSize)
                              (0 + Uint8Array.byteLength arrayBuffer)); [|lia].
  - intros Hpad. eexists. split; [by apply build_padded_spec|]. split.
    + by rewrite byteLength_app, byteLength_filler.
    + apply take_app_length.
  - intros ->. rewrite build_padded_spec by done.
    unfold filler. rewrite seqZ_nil by done. simpl. by rewrite app_nil_r.
Qed.

(** X2. The filler loop on any buffer, from any offset [start >= 0]: the
    bytes below [start] stay as they were and every byte from [start] on is
    overwritten with its offset modulo 255, whatever it held; the length is
    kept, and a [start] at or past the end changes nothing. *)
Theorem fill_padding_overwrites_tail (start : Z) (paddedBuffer : list Z) :
  0 <= start ->
  fill_padding start paddedBuffer
  = take (Z.to_nat start) paddedBuffer
    ++ filler start (Uint8Array.byteLength paddedBuffer - start) /\
  length (fill_padding start paddedBuffer) = length paddedBuffer /\
  (Uint8Array.byteLength paddedBuffer <= start ->
   fill_padding start paddedBuffer = paddedBuffer).
Proof.
  intros Hstart.
  assert (Hpast : Uint8Array.byteLength paddedBuffer <= start ->
                  fill_padding start paddedBuffer = paddedBuffer).
  { intros Hge. unfold fill_padding. by rewrite seqZ_nil by lia. }
  assert (Heq : fill_padding start paddedBuffer
                = take (Z.to_nat start) paddedBuffer
                  ++ filler start (Uint8Array.byteLength paddedBuffer - start)).
  { destruct (Z.le_gt_cases (Uint8Array.byteLength paddedBuffer) start) as [Hge|Hlt].
    - rewrite Hpast by done. unfold filler. rewrite seqZ_nil by lia. simpl.
      rewrite app_nil_r, take_ge; [done|].
      unfold Uint8Array.byteLength in Hge. lia.
    - unfold Uint8Array.byteLength in Hlt.
      assert (Hpre : Uint8Array.byteLength (take (Z.to_nat start) paddedBuffer) = start).
      { unfold Uint8Array.byteLength. rewrite length_take. lia. }
      assert (Hpost : Uint8Array.byteLength (drop (Z.to_nat start) paddedBuffer)
                      = Uint8Array.byteLength paddedBuffer - start).
      { unfold Uint8Array.byteLength. rewrite length_drop. lia. }
      rewrite <- (take_drop (Z.to_nat start) paddedBuffer) at 1.
      rewrite <- Hpre at 1. rewrite fill_padding_app. by rewrite Hpre, Hpost. }
  split; [done|]. split; [|done].
  rewrite Heq, length_app, length_take, length_filler.
  unfold Uint8Array.byteLength. lia.
Qed.

Lemma fill_padding_overwrites_tail_witness :
  0 <= 2 /\
  fill_padding 2 [9; 9; 7; 7; 7]
  = take (Z.to_nat 2) [9; 9; 7; 7; 7]
    ++ filler 2 (Uint8Array.byteLength [9; 9; 7; 7; 7] - 2).
Proof.
  split; [lia|].
  apply (fill_padding_overwrites_tail 2 [9; 9; 7; 7; 7]). lia.
Defined.

(** X3. The filler depends on the absolute offset alone: two padded buffers
    built from any two inputs hold the same byte at every offset that lies
    in both padding regions, and within one padding region the bytes repeat
    with period 255. *)
Theorem filler_depends_on_offset_only (ab1 ab2 : list Z) (p1 p2 : Z)
        (out1 out2 : list Z) (i : Z) :
  build_padded ab1 p1 = Some out1 ->
  build_padded ab2 p2 = Some out2 ->
  Uint8Array.byteLength ab1 <= i < Uint8Array.byteLength ab1 + p1 ->
  Uint8Array.byteLength ab2 <= i < Uint8Array.byteLength ab2 + p2 ->
  out1 !! Z.to_nat i = out2 !! Z.to_nat i /\
  (i + 255 < Uint8Array.byteLength ab1 + p1 ->
   out1 !! Z.to_nat (i + 255) = out1 !! Z.to_nat i).
Proof.
  intros H1 H2 Hi1 Hi2.
  assert (Hlookup : forall ab p out j,
             build_padded ab p = Some out ->
             Uint8Array.byteLength ab <= j < Uint8Array.byteLength ab + p ->
             out !! Z.to_nat j = Some (j `mod` 255)).
  { intros ab p out j Hout Hj.
    rewrite build_padded_spec in Hout by lia. injection Hout as <-.
    unfold Uint8Array.byteLength in *.
    rewrite lookup_app_r by lia. rewrite lookup_filler by lia.
    do 2 f_equal. lia. }
  split.
  - by rewrite (Hlookup ab1 p1 out1 i), (Hlookup ab2 p2 out2 i).
  - intros Hnext.
    rewrite (Hlookup ab1 p1 out1 i), (Hlookup ab1 p1 out1 (i + 255)) by (done || lia).
    f_equal. replace (i + 255) with (i + 1 * 255) by lia. apply Z_mod_plus_full.
Qed.

Lemma filler_depends_on_offset_only_witness :
  build_padded tiny_jpeg 300 = Some (tiny_jpeg ++ filler 4 300) /\
  build_padded [1; 2] 10 = Some ([1; 2] ++ filler 2 10) /\
  (tiny_jpeg ++ filler 4 300) !! Z.to_nat 5 = ([1; 2] ++ filler 2 10) !! Z.to_nat 5.
Proof.
  assert (H1 : build_padded tiny_jpeg 300 = Some (tiny_jpeg ++ filler 4 300))
    by (vm_compute; reflexivity).
  assert (H2 : build_padded [1; 2] 10 = Some ([1; 2] ++ filler 2 10))
    by (vm_compute; reflexivity).
  split; [exact H1|]. split; [exact H2|].
  assert (Hi1 : Uint8Array.byteLength tiny_jpeg <= 5
                < Uint8Array.byteLength tiny_jpeg + 300)
    by (unfold Uint8Array.byteLength; simpl; lia).
  assert (Hi2 : Uint8Array.byteLength [1; 2] <= 5
                < Uint8Array.byteLength [1; 2] + 10)
    by (unfold Uint8Array.byteLength; simpl; lia).
  exact (proj1 (filler_depends_on_offset_only tiny_jpeg [1; 2] 300 10 _ _ 5
                                              H1 H2 Hi1 Hi2)).
Defined.

(** X4. The padding step is idempotent: it never throws, the size it
    reports is the size of the blob it returns, and applied to its own
    output it returns that output unchanged. *)
Theorem pad_to_target_idempotent (baseline : Blob) (w0 : World) :
  exists padded n,
    pad_to_target baseline (size baseline) w0 = (w0, Ok (padded, n)) /\
    n = size padded /\
    targetSizeInBytes <= n /\
    pad_to_target padded n w0 = (w0, Ok (padded, n)).
Proof.
  exists (size_targeted baseline), (size (size_targeted baseline)).
  assert (Hsize : targetSizeInBytes <= size (size_targeted baseline)).
  { destruct (Z.lt_ge_cases (size baseline) targetSizeInBytes) as [Hlt|Hge].
    - unfold size at 1. rewrite size_targeted_small by done.
      rewrite byteLength_app, byteLength_filler by lia. unfold size. lia.
    - by rewrite size_targeted_large. }
  split; [apply pad_to_target_spec|]. split; [done|]. split; [done|].
  rewrite pad_to_target_spec. by rewrite size_targeted_large.
Qed.

(** ** Further properties of [processImage] (lines 48-119) *)

Lemma size_size_targeted (baseline : Blob) :
  size (size_targeted baseline) = Z.max (size baseline) targetSizeInBytes.
Proof.
  destruct (Z.lt_ge_cases (size baseline) targetSizeInBytes) as [Hlt|Hge].
  - unfold size at 1. rewrite size_targeted_small by done.
    rewrite byteLength_app, byteLength_filler by lia. unfold size in *. lia.
  - rewrite size_targeted_large by done. lia.
Qed.

Section published_artifact.

Context (br : Browser) (w : World) (src : string) (img : SourceImage)
        (baseline : Blob).
Hypothesis Himage : selected_image w = Some src.
Hypothesis Hload : image_load br src = Some img.
Hypothesis Hctx : getContext_2d br blank_canvas = true.
Hypothesis Hblob : canvas_toBlob br (normalized img) "image/jpeg" 1 = Some baseline.

(** X5. A published artifact is as long as the longer of the baseline
    encode and [targetSizeInBytes]: it is never below [minBytes], and it
    lies within [minBytes, maxBytes] exactly when the baseline encode does
    not exceed [maxBytes]. *)
Theorem artifact_window :
  exists final,
    artifact (run br w) = Some final /\
    size final = Z.max (size baseline) targetSizeInBytes /\
    minBytes <= size final /\
    (size final <= maxBytes <-> size baseline <= maxBytes).
Proof.
  exists (size_targeted baseline).
  split; [by apply (artifact_run br w src img)|].
  rewrite size_size_targeted.
  unfold minBytes, maxBytes, MIN_KB, MAX_KB. rewrite targetSizeInBytes_value.
  lia.
Qed.

(** X6. A padded artifact is labelled [image/jpeg] whatever type the
    browser gave the baseline blob (line 104); an artifact passed through
    keeps the type of the baseline blob. *)
Theorem artifact_type :
  exists final,
    artifact (run br w) = Some final /\
    (size baseline < targetSizeInBytes -> blob_type final = "image/jpeg") /\
    (targetSizeInBytes <= size baseline -> blob_type final = blob_type baseline).
Proof.
  exists (size_targeted baseline).
  split; [by apply (artifact_run br w src img)|].
  split; intros Hsize.
  - unfold size_targeted.
    by destruct (Z.ltb_spec (size baseline) targetSizeInBytes); [|lia].
  - by rewrite size_targeted_large.
Qed.

(** X7. Object URLs are never revoked: [n] invocations in a row on the same
    image leave [n] more blobs in the URL store, each a copy of the same
    artifact, and the blobs that were there before are all still there. *)
Theorem repeated_runs_keep_every_blob (n : nat) :
  object_urls (Nat.iter n (run br) w)
  = object_urls w ++ replicate n (size_targeted baseline) /\
  selected_image (Nat.iter n (run br) w) = Some src.
Proof.
  induction n as [|n [IHurls IHimage]]; simpl.
  - by rewrite app_nil_r.
  - rewrite (run_publishes br _ src img baseline) by done.
    split; [|by rewrite image_published].
    simpl. rewrite IHurls, <- app_assoc. f_equal.
    change (replicate n (size_targeted baseline) ++ [size_targeted baseline]
            = replicate (S n) (size_targeted baseline)).
    by rewrite replicate_S_end.
Qed.

(** X8. A published artifact outlives a later failure: when the next
    invocation fails at any stage, the state holds the generic error and
    still the artifact and size of the earlier invocation. *)
Theorem stale_artifact_survives_failure (br' : Browser) (calls : list Event)
        (cause : Exn) :
  stage_failure br' src calls cause ->
  exists final,
    artifact (run br w) = Some final /\
    artifact (run br' (run br w)) = Some final /\
    processedSize (app (run br' (run br w))) = Some (size final) /\
    error (app (run br w)) = None /\
    error (app (run br' (run br w))) = Some generic_failure.
Proof.
  intros Hfail. exists (size_targeted baseline).
  assert (Hfirst : run br w = published w src (size_targeted baseline))
    by (by apply (run_publishes br w src img)).
  assert (Hsecond : run br' (run br w) = failed (run br w) calls cause).
  { unfold run at 1.
    rewrite (processImage_stage_failure br' (run br w) src calls cause); [done| |done].
    by rewrite Hfirst, image_published. }
  rewrite Hsecond, artifact_failed, Hfirst, artifact_published. done.
Qed.

End published_artifact.

(** X9. Whatever the browser answers, an invocation only appends to the URL
    store and to the call trace: at most one blob is added, every URL that
    resolved before resolves to the same blob after, and the invocation
    itself never throws. *)
Theorem run_only_appends (br : Browser) (w : World) :
  snd (processImage br w) = Ok tt /\
  (exists added, object_urls (run br w) = object_urls w ++ added /\
                 (length added <= 1)%nat) /\
  (exists calls, events (run br w) = events w ++ calls) /\
  forall url blob, object_urls w !! url = Some blob ->
                   object_urls (run br w) !! url = Some blob.
Proof.
  assert (Hcases : processImage br w = (w, Ok tt)
                   \/ (exists src final, processImage br w = (published w src final, Ok tt))
                   \/ (exists calls cause, processImage br w = (failed w calls cause, Ok tt))).
  { destruct (selected_image w) as [src|] eqn:Himage.
    - destruct (processImage_cases br w src Himage)
        as [(img & baseline & _ & _ & _ & Hrun)|(calls & cause & _ & Hrun)]; eauto 6.
    - left. by apply processImage_without_image. }
  unfold run.
  destruct Hcases as [->|[(src & final & ->)|(calls & cause & ->)]]; simpl.
  - split; [done|]. split; [exists []; rewrite app_nil_r; split; [done|simpl; lia]|].
    split; [exists []; by rewrite app_nil_r|done].
  - split; [done|]. split; [exists [final]; split; [done|simpl; lia]|].
    split; [by eexists|].
    intros url blob Hurl. by apply lookup_app_l_Some.
  - split; [done|]. split; [exists []; rewrite app_nil_r; split; [done|simpl; lia]|].
    split; [by eexists|done].
Qed.

(** X10. The busy flag never sticks: after an invocation on a selected
    image the flag is down and the image and file information are the ones
    the invocation started with, whether it published or failed. *)
Theorem busy_flag_always_dropped (br : Browser) (w : World) (src : string) :
  selected_image w = Some src ->
  processing (app (run br w)) = false /\
  image (app (run br w)) = image (app w) /\
  fileInfo (app (run br w)) = fileInfo (app w) /\
  selected_image (run br w) = Some src.
Proof.
  intros Himage. unfold run.
  destruct (processImage_cases br w src Himage)
    as [(img & baseline & _ & _ & _ & ->)|(calls & cause & _ & ->)]; done.
Qed.

Lemma artifact_window_witness :
  exists final,
    artifact (run (browser_encoding (blob_bytes oversized_blob))
                  (initial_world sample_src)) = Some final /\
    size final = Z.max (size oversized_blob) targetSizeInBytes /\
    minBytes <= size final /\
    (size final <= maxBytes <-> size oversized_blob <= maxBytes).
Proof.
  apply (artifact_window (browser_encoding (blob_bytes oversized_blob))
                         (initial_world sample_src) sample_src sample_image
                         oversized_blob); reflexivity.
Defined.

Lemma artifact_type_witness :
  exists final,
    artifact (run (browser_encoding tiny_jpeg) (initial_world sample_src)) = Some final /\
    (size tiny_blob < targetSizeInBytes -> blob_type final = "image/jpeg") /\
    (targetSizeInBytes <= size tiny_blob -> blob_type final = blob_type tiny_blob).
Proof.
  apply (artifact_type (browser_encoding tiny_jpeg) (initial_world sample_src)
                       sample_src sample_image tiny_blob); reflexivity.
Defined.

Lemma repeated_runs_keep_every_blob_witness :
  object_urls (Nat.iter 3 (run (browser_encoding tiny_jpeg)) (initial_world sample_src))
  = object_urls (initial_world sample_src) ++ replicate 3 (size_targeted tiny_blob) /\
  selected_image (Nat.iter 3 (run (browser_encoding tiny_jpeg))
                           (initial_world sample_src)) = Some sample_src.
Proof.
  apply (repeated_runs_keep_every_blob (browser_encoding tiny_jpeg)
           (initial_world sample_src) sample_src sample_image tiny_blob);
    reflexivity.
Defined.

Lemma stale_artifact_survives_failure_witness :
  stage_failure browser_without_context sample_src
                [ImageLoad sample_src; GetContext] (Error "Canvas context failed") /\
  exists final,
    artifact (run (browser_encoding tiny_jpeg) (initial_world sample_src)) = Some final /\
    artifact (run browser_without_context
                  (run (browser_encoding tiny_jpeg) (initial_world sample_src)))
    = Some final /\
    processedSize (app (run browser_without_context
                            (run (browser_encoding tiny_jpeg) (initial_world sample_src))))
    = Some (size final) /\
    error (app (run (browser_encoding tiny_jpeg) (initial_world sample_src))) = None /\
    error (app (run browser_without_context
                    (run (browser_encoding tiny_jpeg) (initial_world sample_src))))
    = Some generic_failure.
Proof.
  assert (Hfail : stage_failure browser_without_context sample_src
                    [ImageLoad sample_src; GetContext]
                    (Error "Canvas context failed")).
  { apply (context_unavailable _ _ sample_image); reflexivity. }
  split; [exact Hfail|].
  apply (stale_artifact_survives_failure
           (browser_encoding tiny_jpeg) (initial_world sample_src) sample_src
           sample_image tiny_blob eq_refl eq_refl eq_refl eq_refl
           browser_without_context _ _ Hfail).
Defined.

Lemma busy_flag_always_dropped_witness :
  selected_image (initial_world sample_src) = Some sample_src /\
  processing (app (run browser_without_context (initial_world sample_src))) = false.
Proof.
  split; [reflexivity|].
  apply (busy_flag_always_dropped browser_without_context
                                  (initial_world sample_src) sample_src eq_refl).
Defined.

(** ** The file picker (lines 27-46) *)

(** X11. A first file whose type does not start with [image/] is refused:
    the upload message is set and nothing else changes; the file is not
    read, and the image, the result and every object URL stay as they
    were. *)
Theorem handleFileChange_refuses_other_types
        (reader : File -> option string) (files : list File) (file : File)
        (p : Page) :
  head files = Some file ->
  startsWith (file_type file) "image/" = false ->
  error (app (world (handleFileChange reader files p))) = Some upload_error /\
  image (app (world (handleFileChange reader files p))) = image (app (world p)) /\
  fileInfo (app (world (handleFileChange reader files p))) = fileInfo (app (world p)) /\
  processing (app (world (handleFileChange reader files p)))
  = processing (app (world p)) /\
  processedImage (app (world (handleFileChange reader files p)))
  = processedImage (app (world p)) /\
  processedSize (app (world (handleFileChange reader files p)))
  = processedSize (app (world p)) /\
  object_urls (world (handleFileChange reader files p)) = object_urls (world p) /\
  page_events (handleFileChange reader files p) = page_events p /\
  body (handleFileChange reader files p) = body p.
Proof.
  intros Hhead Htype. unfold handleFileChange. rewrite Hhead, Htype. done.
Qed.

Lemma handleFileChange_refuses_other_types_witness :
  startsWith "text/plain" "image/" = false /\
  error (app (world (handleFileChange (fun _ => Some sample_src)
                                      [mkFile "photo.jpg" "text/plain" 10]
                                      (initial_page []))))
  = Some upload_error.
Proof.
  split; [reflexivity|].
  apply (handleFileChange_refuses_other_types
           (fun _ => Some sample_src) [mkFile "photo.jpg" "text/plain" 10]
           (mkFile "photo.jpg" "text/plain" 10) (initial_page []));
    reflexivity.
Defined.

(** X12. A first file of an image type whose data URL arrives replaces the
    selection: [image] is the data URL, [fileInfo] the name and size, the
    earlier result, size and error are cleared, the busy flag is untouched,
    and the blob of the earlier result stays in the URL store. *)
Theorem handleFileChange_accepts_image
        (reader : File -> option string) (files : list File) (file : File)
        (result : string) (p : Page) :
  head files = Some file ->
  startsWith (file_type file) "image/" = true ->
  reader file = Some result ->
  app (world (handleFileChange reader files p))
  = {| image := Some result;
       fileInfo := Some (file_name file, file_size file);
       processing := processing (app (world p));
       processedImage := None; processedSize := None; error := None |} /\
  artifact (world (handleFileChange reader files p)) = None /\
  object_urls (world (handleFileChange reader files p)) = object_urls (world p) /\
  events (world (handleFileChange reader files p)) = events (world p) /\
  page_events (handleFileChange reader files p)
  = page_events p ++ [ReadAsDataURL file] /\
  body (handleFileChange reader files p) = body p.
Proof.
  intros Hhead Htype Hread. unfold handleFileChange.
  rewrite Hhead, Htype, Hread. done.
Qed.

Lemma handleFileChange_accepts_image_witness :
  startsWith "image/png" "image/" = true /\
  artifact (world (handleFileChange (fun _ => Some sample_src)
                                    [mkFile "photo.png" "image/png" 10]
                                    (initial_page []))) = None.
Proof.
  split; [reflexivity|].
  apply (handleFileChange_accepts_image
           (fun _ => Some sample_src) [mkFile "photo.png" "image/png" 10]
           (mkFile "photo.png" "image/png" 10) sample_src (initial_page []));
    reflexivity.
Defined.

(** X13. Whatever is chosen, the file picker leaves the URL store, the
    call trace, the busy flag and the document alone (the object URL of a
    discarded result is not revoked), and it changes the selected image or
    the displayed result only when the first file has an image type and
    its data URL arrives. *)
Theorem handleFileChange_frame
        (reader : File -> option string) (files : list File) (p : Page) :
  object_urls (world (handleFileChange reader files p)) = object_urls (world p) /\
  events (world (handleFileChange reader files p)) = events (world p) /\
  processing (app (world (handleFileChange reader files p)))
  = processing (app (world p)) /\
  body (handleFileChange reader files p) = body p /\
  (image (app (world (handleFileChange reader files p))) <> image (app (world p))
   \/ processedImage (app (world (handleFileChange reader files p)))
      <> processedImage (app (world p)) ->
   exists file result,
     head files = Some file /\
     startsWith (file_type file) "image/" = true /\
     reader file = Some result /\
     image (app (world (handleFileChange reader files p))) = Some result).
Proof.
  unfold handleFileChange.
  destruct (head files) as [file|]; [|by split_and!; [..|intros []]].
  destruct (startsWith (file_type file) "image/") eqn:Htype; simpl.
  - destruct (reader file) as [result|] eqn:Hread; simpl.
    + split_and!; try done. intros _. by exists file, result.
    + by split_and!; [..|intros []].
  - by split_and!; [..|intros []].
Qed.

(** ** The download (lines 121-130) *)

Lemma string_app_length (s t : string) :
  String.length (s +:+ t) = (String.length s + String.length t)%nat.
Proof. induction s as [|a s IH]; simpl; [done|by rewrite IH]. Qed.

Lemma string_app_inv_tail (s1 s2 t : string) : s1 +:+ t = s2 +:+ t -> s1 = s2.
Proof.
  revert s2. induction s1 as [|a s1 IH]; intros [|b s2] Heq.
  - done.
  - apply (f_equal String.length) in Heq.
    rewrite !string_app_length in Heq. simpl in Heq. lia.
  - apply (f_equal String.length) in Heq.
    rewrite !string_app_length in Heq. simpl in Heq. lia.
  - change (String a (s1 +:+ t) = String b (s2 +:+ t)) in Heq.
    injection Heq as -> Heq. f_equal. by apply IH.
Qed.

(** X14. The download never touches the component state and leaves the
    document body as it found it.  With no result nothing happens at all;
    with a result it clicks once, on a link that is in the document at that
    moment, points at the result's object URL and carries the name of
    line 125. *)
Theorem downloadImage_effect (now : Z) (p : Page) :
  world (downloadImage now p) = world p /\
  body (downloadImage now p) = body p /\
  match processedImage (app (world p)) with
  | None => downloadImage now p = p
  | Some url =>
      page_events (downloadImage now p)
      = page_events p
        ++ [LinkClick {| href := url; download := download_name now |} true]
  end.
Proof.
  unfold downloadImage.
  destruct (processedImage (app (world p))) as [url|]; [|done].
  simpl. split; [done|]. split.
  - replace (body p ++ [Anchor {| href := url; download := download_name now |}])
      with (body p ++ Anchor {| href := url; download := download_name now |} :: [])
      by done.
    rewrite delete_middle. apply app_nil_r.
  - do 3 f_equal. apply bool_decide_eq_true, elem_of_app. right. constructor.
Qed.

(** X15. Every download name starts with [id_photo_200kb_], whatever the
    size of the artifact, and two downloads get the same name exactly when
    their clock readings fall in the same second. *)
Theorem download_name_by_second (now1 now2 : Z) :
  String.prefix "id_photo_200kb_" (download_name now1) = true /\
  (download_name now1 = download_name now2 <-> now1 `div` 1000 = now2 `div` 1000).
Proof.
  unfold download_name. split; [simpl; by destruct (_ +:+ _)|]. split.
  - intros Heq. apply String.app_inj in Heq.
    apply string_app_inv_tail in Heq. by apply pretty_Z_inj in Heq.
  - by intros ->.
Qed.

(** ** Sessions of the three handlers *)




(** X17. Choosing an image file, processing it and downloading, from any
    page: the click goes to a link whose object URL resolves to the
    size-targeted baseline encode of that file's image, under the name of
    that moment; no error is shown and the body is as before. *)
Theorem choose_process_download
        (reader : File -> option string) (files : list File) (file : File)
        (src : string) (br : Browser) (img : SourceImage) (baseline : Blob)
        (now : Z) (p : Page) :
  head files = Some file ->
  startsWith (file_type file) "image/" = true ->
  reader file = Some src ->
  src <> "" ->
  image_load br src = Some img ->
  getContext_2d br blank_canvas = true ->
  canvas_toBlob br (normalized img) "image/jpeg" 1 = Some baseline ->
  exists url,
    last (page_events (session [ChooseFiles reader files; ClickProcess br;
                                ClickDownload now] p))
    = Some (LinkClick {| href := url; download := download_name now |} true) /\
    object_urls (world (session [ChooseFiles reader files; ClickProcess br;
                                 ClickDownload now] p)) !! url
    = Some (size_targeted baseline) /\
    error (app (world (session [ChooseFiles reader files; ClickProcess br;
                                ClickDownload now] p))) = None /\
    body (session [ChooseFiles reader files; ClickProcess br; ClickDownload now] p)
    = body p.
Proof.
  intros Hhead Htype Hread Hsrc Hload Hctx Hblob.
  set (p1 := handleFileChange reader files p).
  destruct (handleFileChange_accepts_image reader files file src p Hhead Htype Hread)
    as (Happ & _ & Hurls & _ & _ & Hbody1).
  fold p1 in Happ, Hurls, Hbody1.
  assert (Hsel : selected_image (world p1) = Some src).
  { unfold selected_image. rewrite Happ. simpl.
    by destruct (String.eqb_spec src ""). }
  set (p2 := exec (processImage br) p1).
  assert (Hw2 : world p2 = published (world p1) src (size_targeted baseline)).
  { unfold p2, exec. simpl.
    by rewrite (processImage_publishes br (world p1) src Hsel img baseline). }
  exists (length (object_urls (world p1))).
  destruct (downloadImage_effect now p2) as (Hw3 & Hbody3 & Hevents).
  rewrite Hw2 in Hevents. simpl in Hevents.
  change (session [ChooseFiles reader files; ClickProcess br; ClickDownload now] p)
    with (downloadImage now p2).
  rewrite Hevents, Hw3, Hbody3, Hw2. simpl.
  split; [by rewrite last_snoc|].
  split; [rewrite lookup_app_r by lia; by rewrite Nat.sub_diag|].
  split; [done|]. done.
Qed.

Lemma choose_process_download_witness :
  sample_src <> "" /\
  exists url,
    last (page_events
            (session [ChooseFiles (fun _ => Some sample_src)
                                  [mkFile "photo.png" "image/png" 10];
                      ClickProcess (browser_encoding tiny_jpeg);
                      ClickDownload 1700000000123] (initial_page [])))
    = Some (LinkClick {| href := url; download := download_name 1700000000123 |} true) /\
    object_urls
      (world (session [ChooseFiles (fun _ => Some sample_src)
                                   [mkFile "photo.png" "image/png" 10];
                       ClickProcess (browser_encoding tiny_jpeg);
                       ClickDownload 1700000000123] (initial_page []))) !! url
    = Some (size_targeted tiny_blob) /\
    error (app (world (session [ChooseFiles (fun _ => Some sample_src)
                                            [mkFile "photo.png" "image/png" 10];
                                ClickProcess (browser_encoding tiny_jpeg);
                                ClickDownload 1700000000123] (initial_page []))))
    = None /\
    body (session [ChooseFiles (fun _ => Some sample_src)
                               [mkFile "photo.png" "image/png" 10];
                   ClickProcess (browser_encoding tiny_jpeg);
                   ClickDownload 1700000000123] (initial_page []))
    = body (initial_page []).
Proof.
  assert (Hsrc : sample_src <> "") by discriminate.
  split; [exact Hsrc|].
  apply (choose_process_download
           (fun _ => Some sample_src) [mkFile "photo.png" "image/png" 10]
           (mkFile "photo.png" "image/png" 10) sample_src
           (browser_encoding tiny_jpeg) sample_image tiny_blob 1700000000123
           (initial_page []));
    first [exact Hsrc | reflexivity].
Defined.

(** ** Rendering (lines 132-303) *)

Lemma truthy_selected (w : World) (src : string) :
  selected_image w = Some src -> truthy (image (app w)) = true.
Proof.
  unfold selected_image, truthy.
  destruct (image (app w)) as [s|]; [|done].
  by destruct (String.eqb s "").
Qed.

(** X18. After any invocation on a selected image, published or failed,
    the process button is enabled again and shows its idle label. *)
Theorem button_enabled_after_run (br : Browser) (w : World) (src : string) :
  selected_image w = Some src ->
  button_disabled (render (app (run br w))) = false /\
  button_label (render (app (run br w))) = "调整至约 200KB".
Proof.
  intros Himage.
  destruct (busy_flag_always_dropped br w src Himage) as (Hbusy & _ & _ & Hsel).
  unfold render. simpl. rewrite Hbusy.
  by rewrite (truthy_selected _ _ Hsel).
Qed.

Lemma button_enabled_after_run_witness :
  selected_image (initial_world sample_src) = Some sample_src /\
  button_disabled (render (app (run browser_without_context
                                    (initial_world sample_src)))) = false /\
  button_label (render (app (run browser_without_context
                                 (initial_world sample_src)))) = "调整至约 200KB".
Proof.
  split; [reflexivity|].
  apply (button_enabled_after_run browser_without_context
                                  (initial_world sample_src) sample_src eq_refl).
Defined.

Section rendered_result.

Context (br : Browser) (w : World) (src : string) (img : SourceImage)
        (baseline : Blob).
Hypothesis Himage : selected_image w = Some src.
Hypothesis Hload : image_load br src = Some img.
Hypothesis Hctx : getContext_2d br blank_canvas = true.
Hypothesis Hblob : canvas_toBlob br (normalized img) "image/jpeg" 1 = Some baseline.

(** X19. For every baseline encode shorter than the target the result
    panel reads [200.0] (KB), the download button is shown and no error
    banner is. *)
Theorem padded_result_reads_200 :
  size baseline < targetSizeInBytes ->
  result_panel (render (app (run br w))) = Some "200.0" /\
  download_shown (render (app (run br w))) = true /\
  error_banner (render (app (run br w))) = None.
Proof.
  intros Hlt. rewrite (run_publishes br w src img baseline) by done.
  unfold render. simpl.
  rewrite size_size_targeted, Z.max_r by lia.
  split; [by vm_compute|]. done.
Qed.

(** X20. After a published result and a failed retry the page shows both
    the result panel with its download button and the error banner. *)
Theorem result_and_error_both_shown (br' : Browser) (calls : list Event)
        (cause : Exn) :
  stage_failure br' src calls cause ->
  is_Some (result_panel (render (app (run br' (run br w))))) /\
  download_shown (render (app (run br' (run br w)))) = true /\
  error_banner (render (app (run br' (run br w)))) = Some generic_failure.
Proof.
  intros Hfail.
  assert (Hfirst : run br w = published w src (size_targeted baseline))
    by (by apply (run_publishes br w src img)).
  assert (Hsecond : run br' (run br w) = failed (run br w) calls cause).
  { unfold run at 1.
    rewrite (processImage_stage_failure br' (run br w) src calls cause); [done| |done].
    by rewrite Hfirst, image_published. }
  rewrite Hsecond, Hfirst. unfold render. simpl. done.
Qed.

End rendered_result.

Lemma padded_result_reads_200_witness :
  size tiny_blob < targetSizeInBytes /\
  result_panel (render (app (run (browser_encoding tiny_jpeg)
                                 (initial_world sample_src)))) = Some "200.0".
Proof.
  split; [reflexivity|].
  apply (padded_result_reads_200 (browser_encoding tiny_jpeg)
                                 (initial_world sample_src) sample_src
                                 sample_image tiny_blob); reflexivity.
Defined.

Lemma result_and_error_both_shown_witness :
  stage_failure browser_without_context sample_src
                [ImageLoad sample_src; GetContext] (Error "Canvas context failed") /\
  error_banner
    (render (app (run browser_without_context
                      (run (browser_encoding tiny_jpeg) (initial_world sample_src)))))
  = Some generic_failure.
Proof.
  assert (Hfail : stage_failure browser_without_context sample_src
                    [ImageLoad sample_src; GetContext]
                    (Error "Canvas context failed")).
  { apply (context_unavailable _ _ sample_image); reflexivity. }
  split; [exact Hfail|].
  apply (result_and_error_both_shown
           (browser_encoding tiny_jpeg) (initial_world sample_src) sample_src
           sample_image tiny_blob eq_refl eq_refl eq_refl eq_refl
           browser_without_context _ _ Hfail).
Defined.

(** ** The added code on concrete inputs *)

Example download_name_sample :
  download_name 1700000000123 = "id_photo_200kb_1700000000.jpg".
Proof. vm_compute. reflexivity. Qed.

Example toFixed1_kb_samples :
  toFixed1_kb 204800 = "200.0" /\ toFixed1_kb 1234 = "1.2" /\
  toFixed1_kb 1588 = "1.6" /\ toFixed1_kb 0 = "0.0" /\ toFixed1_kb 307200 = "300.0".
Proof. vm_compute. done. Qed.

Example refused_file_keeps_selection :
  app (world (handleFileChange (fun _ => Some "data:,x")
                               [mkFile "notes.txt" "text/plain" 3]
                               {| world := initial_world sample_src; body := [];
                                  page_events := [] |}))
  = {| image := Some sample_src; fileInfo := Some ("photo.png", 1234);
       processing := false; processedImage := None; processedSize := None;
       error := Some upload_error |}.
Proof. vm_compute. reflexivity. Qed.
